(** * The next-axiom logger ([packages/nextjs/src/core/logger.ts])

    A shallow embedding of the [Logger] class, the [LogLevel] enum, the
    event construction of [_log], the sink decision of [ingest], [flush]
    and the console formatter [prettyPrint], followed by the properties
    the specification states about them.

    JavaScript values are a first-order datatype; objects are association
    lists in property order; the loggers live in a store indexed by
    references because [children] is mutated in place; console writes and
    calls of the ingestion client are recorded in a trace. *)

From Stdlib Require Import ZArith String Ascii List Lia.
From stdpp Require Import base option list strings pretty.

Local Open Scope string_scope.
Local Open Scope list_scope.

(** ** JavaScript values *)

(** The values the logger handles. [VError] is an instance of [Error]:
    [name], [message] and [stack] are its non-enumerable properties
    ([stack] may be undefined), [props] the enumerable ones a custom error
    carries. [VFun] is a function: the number of its parameters and what
    a call of it as a [toJSON] method ends in, [result] returned, or
    thrown when [throws]; [JSON.stringify] is the one caller of functions
    here. Numbers are the integer-valued ones; cyclic objects are not
    representable. *)
#[warnings="-register-all"]
Inductive value : Type :=
| VUndefined
| VNull
| VBool (b : bool)
| VNum (n : Z)
| VStr (s : string)
| VArr (xs : list value)
| VObj (props : list (string * value))
| VError (name message : string) (stack : option string)
         (props : list (string * value))
| VFun (arity : nat) (throws : bool) (result : value).

(** A JavaScript object used as a record or a dictionary: its own
    enumerable properties, in property order. *)
Definition obj : Type := list (string * value).

(** [o[k]] on own properties. *)
Fixpoint obj_get (k : string) (o : obj) : option value :=
  match o with
  | [] => None
  | (k', v) :: o' => if String.eqb k k' then Some v else obj_get k o'
  end.

(** [o[k] = v]: an existing key keeps its position, a new one is
    appended. The language lists integer-like keys before the others;
    this order is not modelled, reads by key do not depend on it. *)
Fixpoint obj_set (k : string) (v : value) (o : obj) : obj :=
  match o with
  | [] => [(k, v)]
  | (k', v') :: o' =>
      if String.eqb k k' then (k, v) :: o' else (k', v') :: obj_set k v o'
  end.

(** [{ ...base, ...ext }]. *)
Definition spread (base ext : obj) : obj :=
  fold_left (fun acc kv => obj_set (fst kv) (snd kv) acc) ext base.

Definition Object_keys (o : obj) : list string := map fst o.

(** The properties every plain object inherits from [Object.prototype]:
    a read of one of these keys on an object that has no such key of its
    own finds the inherited member. *)
Definition Object_prototype_keys : list string :=
  ["constructor"; "__defineGetter__"; "__defineSetter__"; "hasOwnProperty";
   "__lookupGetter__"; "__lookupSetter__"; "isPrototypeOf";
   "propertyIsEnumerable"; "toString"; "valueOf"; "__proto__";
   "toLocaleString"].

Definition inherited (k : string) : bool :=
  existsb (String.eqb k) Object_prototype_keys.


Definition opt_value (s : option string) : value :=
  match s with Some x => VStr x | None => VUndefined end.

Fixpoint string_chars (s : string) : list value :=
  match s with
  | EmptyString => []
  | String c s' => VStr (String c EmptyString) :: string_chars s'
  end.

(** The index-keyed properties of an array or of a string. *)
Definition indexed (xs : list value) : obj :=
  imap (fun i x => (pretty i, x)) xs.

(** The own enumerable properties a spread [{ ...v }] or [Object.keys(v)]
    sees. *)
Definition own_enumerable (v : value) : obj :=
  match v with
  | VObj ps => ps
  | VError _ _ _ ps => ps
  | VArr xs => indexed xs
  | VStr s => indexed (string_chars s)
  | _ => []
  end.

(** Property read [v.k]; [None] is the [TypeError] of reading a property
    of [undefined] or [null]. Properties inherited from the built-in
    prototypes other than [length] read as undefined. *)
Definition get_prop (v : value) (k : string) : option value :=
  match v with
  | VUndefined | VNull => None
  | VError n m st ps =>
      Some (if String.eqb k "name" then VStr n
            else if String.eqb k "message" then VStr m
            else if String.eqb k "stack" then opt_value st
            else default VUndefined (obj_get k ps))
  | VArr xs =>
      Some (if String.eqb k "length" then VNum (Z.of_nat (length xs))
            else default VUndefined (obj_get k (indexed xs)))
  | VStr s =>
      Some (if String.eqb k "length" then VNum (Z.of_nat (String.length s))
            else default VUndefined (obj_get k (indexed (string_chars s))))
  | VFun a _ _ =>
      Some (if String.eqb k "length" then VNum (Z.of_nat a) else VUndefined)
  | VObj ps => Some (default VUndefined (obj_get k ps))
  | VBool _ | VNum _ => Some VUndefined
  end.

(** ToBoolean. *)
Definition truthy (v : value) : bool :=
  match v with
  | VUndefined | VNull => false
  | VBool b => b
  | VNum n => negb (n =? 0)%Z
  | VStr s => negb (String.eqb s "")
  | _ => true
  end.

(** [typeof v === 'object']. *)
Definition typeof_object (v : value) : bool :=
  match v with
  | VNull | VArr _ | VObj _ | VError _ _ _ _ => true
  | _ => false
  end.

Definition is_null (v : value) : bool :=
  match v with VNull => true | _ => false end.

(** [v == null]. *)
Definition nullish (v : value) : bool :=
  match v with VUndefined | VNull => true | _ => false end.

(** [v instanceof Error]. *)
Definition instanceof_Error (v : value) : bool :=
  match v with VError _ _ _ _ => true | _ => false end.

(** *** Numbers from strings and the relational comparison *)

Definition digit_of (c : ascii) : option Z :=
  let n := nat_of_ascii c in
  if ((48 <=? n)%nat && (n <=? 57)%nat)%bool
  then Some (Z.of_nat (n - 48)) else None.

Fixpoint digits_to_Z (acc : Z) (s : string) : option Z :=
  match s with
  | EmptyString => Some acc
  | String c s' =>
      match digit_of c with
      | Some d => digits_to_Z (10 * acc + d)%Z s'
      | None => None
      end
  end.

(** ToNumber on a string; [None] is NaN. The empty string is 0 and a run
    of decimal digits is its value. The other numeric literals (signs,
    fractions, exponents, hexadecimal, [Infinity], surrounding blanks) are
    left out: the strings compared below are names of [LogLevel] members. *)
Definition StringToNumber (s : string) : option Z :=
  match s with
  | EmptyString => Some 0%Z
  | _ => digits_to_Z 0%Z s
  end.

(** ToNumber on the primitives; [None] is NaN. *)
Definition ToNumber (v : value) : option Z :=
  match v with
  | VNull => Some 0%Z
  | VBool b => Some (if b then 1 else 0)%Z
  | VNum n => Some n
  | VStr s => StringToNumber s
  | _ => None
  end.

(** [a < b] on primitives: two strings compare as strings, anything else
    as numbers, and a comparison with NaN is false. *)
Definition js_lt (a b : value) : bool :=
  match a, b with
  | VStr s, VStr t => String.ltb s t
  | _, _ =>
      match ToNumber a, ToNumber b with
      | Some x, Some y => (x <? y)%Z
      | _, _ => false
      end
  end.

(** *** [JSON.parse(JSON.stringify(v, jsonFriendlyErrorReplacer))] *)

(** [jsonFriendlyErrorReplacer], applied as [JSON.stringify] applies a
    replacer: to a value first, then to the properties of what it
    returned. An [Error] becomes a plain object of its enumerable
    properties with [name], [message] and [stack] set. *)
Fixpoint jsonFriendlyErrorReplacer (v : value) : value :=
  match v with
  | VArr xs => VArr (map jsonFriendlyErrorReplacer xs)
  | VObj ps =>
      VObj (map (fun kv => (fst kv, jsonFriendlyErrorReplacer (snd kv))) ps)
  | VError n m st ps =>
      VObj (obj_set "stack" (opt_value st)
             (obj_set "message" (VStr m)
               (obj_set "name" (VStr n)
                 (map (fun kv => (fst kv, jsonFriendlyErrorReplacer (snd kv)))
                      ps))))
  | _ => v
  end.

(** A call returns or throws. *)
Inductive outcome (A : Type) : Type :=
| Ret (a : A)
| Throw (e : value).
Arguments Ret {A} a.
Arguments Throw {A} e.

(** Setting a key in a list of keyed entries, as [obj_set] does. *)
Fixpoint entry_set {A : Type} (k : string) (a : A) (l : list (string * A))
    : list (string * A) :=
  match l with
  | [] => [(k, a)]
  | (k', a') :: l' =>
      if String.eqb k k' then (k, a) :: l' else (k', a') :: entry_set k a l'
  end.


(** The own [toJSON] method of an object, when it is callable: whether a
    call of it throws, and with what it ends. *)
Fixpoint toJSON_of (ps : obj) : option (bool * value) :=
  match ps with
  | [] => None
  | (k, x) :: ps' =>
      if String.eqb k "toJSON" then
        match x with
        | VFun _ throws r => Some (throws, r)
        | _ => None
        end
      else toJSON_of ps'
  end.

(** The properties of an object from what each of them serialises to:
    the first one that throws ends the conversion, a property that comes
    out undefined is left out. *)
Fixpoint collect_props (rs : list (string * outcome (option value)))
    : outcome obj :=
  match rs with
  | [] => Ret []
  | (k, r) :: rs' =>
      match r with
      | Throw e => Throw e
      | Ret o =>
          match collect_props rs' with
          | Throw e => Throw e
          | Ret ps =>
              Ret (match o with Some v => (k, v) :: ps | None => ps end)
          end
      end
  end.

(** The elements of an array likewise; an element that comes out
    undefined is written as [null]. *)
Fixpoint collect_elems (rs : list (outcome (option value)))
    : outcome (list value) :=
  match rs with
  | [] => Ret []
  | r :: rs' =>
      match r with
      | Throw e => Throw e
      | Ret o =>
          match collect_elems rs' with
          | Throw e => Throw e
          | Ret xs =>
              Ret (match o with Some v => v | None => VNull end :: xs)
          end
      end
  end.

(** What [JSON.stringify(..., jsonFriendlyErrorReplacer)] writes for a
    property value and [JSON.parse] reads back: [Ret None] is undefined
    (nothing is written). For an object or an [Error] with a callable
    own [toJSON], that method is called first and what it returns is
    converted in its place (its own [toJSON] is not called, hence
    [skip]); what it throws ends the conversion. Then the replacer turns
    an [Error] into the object of its enumerable properties with [name],
    [message] and [stack] set. Then the value is written by its type:
    undefined and functions as nothing, arrays and objects through their
    elements and properties. *)
Fixpoint json_value (skip : bool) (v : value) : outcome (option value) :=
  let called :=
    if skip then None
    else
      match v with
      | VObj ps | VError _ _ _ ps =>
          (fix find (ps : list (string * value))
             : option (outcome (option value)) :=
             match ps with
             | [] => None
             | (k, x) :: ps' =>
                 if String.eqb k "toJSON" then
                   match x with
                   | VFun _ throws r =>
                       Some (if throws then Throw r else json_value true r)
                   | _ => None
                   end
                 else find ps'
             end) ps
      | _ => None
      end in
  match called with
  | Some res => res
  | None =>
      match v with
      | VUndefined | VFun _ _ _ => Ret None
      | VNull | VBool _ | VNum _ | VStr _ => Ret (Some v)
      | VArr xs =>
          match collect_elems (map (json_value false) xs) with
          | Ret ys => Ret (Some (VArr ys))
          | Throw e => Throw e
          end
      | VObj ps =>
          match collect_props
                  (map (fun kv => (fst kv, json_value false (snd kv))) ps) with
          | Ret qs => Ret (Some (VObj qs))
          | Throw e => Throw e
          end
      | VError n m st ps =>
          match collect_props
                  (entry_set "stack" (Ret (option_map VStr st))
                     (entry_set "message" (Ret (Some (VStr m)))
                        (entry_set "name" (Ret (Some (VStr n)))
                           (map (fun kv =>
                                   (fst kv, json_value false (snd kv))) ps))))
          with
          | Ret qs => Ret (Some (VObj qs))
          | Throw e => Throw e
          end
      end
  end.

(** The [SyntaxError] of [JSON.parse(undefined)]. *)
Definition SyntaxError : value :=
  VError "SyntaxError" "undefined is not valid JSON" None [].

(** [JSON.parse(JSON.stringify(v, jsonFriendlyErrorReplacer))]. When
    nothing is written, [JSON.stringify] returns undefined, which
    [JSON.parse] rejects. *)
Definition json_roundtrip (v : value) : outcome value :=
  match json_value false v with
  | Ret (Some j) => Ret j
  | Ret None => Throw SyntaxError
  | Throw e => Throw e
  end.

(** ** The data model *)

(** [enum LogLevel]. *)
Module LogLevel.
Inductive t : Type := debug | info | warn | error | off.

Definition all : list t := [debug; info; warn; error; off].

Definition value_of (l : t) : Z :=
  match l with
  | debug => 0 | info => 1 | warn => 2 | error => 3 | off => 100
  end%Z.

Definition name_of (l : t) : string :=
  match l with
  | debug => "debug" | info => "info" | warn => "warn"
  | error => "error" | off => "off"
  end.

(** The object the compiler emits for a numeric enum: every member is
    entered under its name and, in reverse, its name under its number. *)
Definition object : obj :=
  flat_map (fun l => [(name_of l, VNum (value_of l));
                      (pretty (value_of l), VStr (name_of l))]) all.

(** [LogLevel[k]] on the members. A key the enum object only inherits
    from [Object.prototype] reads as a function there and as undefined
    here. The two agree in a comparison whose other operand is a number
    or undefined, as the left operand is for every level that is a name
    of the enum or no key of it; they differ against a string. *)
Definition index (k : string) : value :=
  default VUndefined (obj_get k object).

(** [l.toString()]. *)
Definition toString (l : t) : string := pretty (value_of l).
End LogLevel.

(** A property of an object type with optional members: the key may be
    missing, or present and undefined, or present with a value. A spread
    copies a key that is present, whatever it holds. *)
Inductive slot (A : Type) : Type :=
| Absent
| Undef
| Val (a : A).
Arguments Absent {A}.
Arguments Undef {A}.
Arguments Val {A} a.

Definition merge_slot {A : Type} (base over : slot A) : slot A :=
  match over with Absent => base | _ => over end.

(** [type LoggerConfig]. *)
Module LoggerConfig.
Record t : Type := mk {
  args : slot obj;
  logLevel : slot LogLevel.t;
  source : slot string;
  req : slot value;
}.

Definition empty : t := mk Absent Absent Absent Absent.

(** [{ ...base, ...over }]. *)
Definition spread (base over : t) : t :=
  {| args := merge_slot (args base) (args over);
     logLevel := merge_slot (logLevel base) (logLevel over);
     source := merge_slot (source base) (source over);
     req := merge_slot (req base) (req over) |}.
End LoggerConfig.

(** [interface LogEvent]. [PlatformInfo], [NetlifyInfo] and the request
    report are objects the logger only passes on. *)
Module LogEvent.
Record t : Type := mk {
  level : string;
  message : string;
  fields : obj;
  _time : string;
  request : option value;
  platform : option obj;
  vercel : option obj;
  netlify : option obj;
}.

Definition set_fields (f : obj) (ev : t) : t :=
  mk (level ev) (message ev) f (_time ev) (request ev) (platform ev)
     (vercel ev) (netlify ev).

Definition set_request (r : option value) (ev : t) : t :=
  mk (level ev) (message ev) (fields ev) (_time ev) r (platform ev)
     (vercel ev) (netlify ev).

Definition set_platform (p : option obj) (ev : t) : t :=
  mk (level ev) (message ev) (fields ev) (_time ev) (request ev) p
     (vercel ev) (netlify ev).

Definition set_vercel (p : option obj) (ev : t) : t :=
  mk (level ev) (message ev) (fields ev) (_time ev) (request ev)
     (platform ev) p (netlify ev).

Definition set_netlify (p : option obj) (ev : t) : t :=
  mk (level ev) (message ev) (fields ev) (_time ev) (request ev)
     (platform ev) (vercel ev) p.
End LogEvent.

(** ** Effects *)

(** What a call leaves behind outside the logger store. *)
Inductive action : Type :=
| ConsoleLog (arguments : list value)
| ConsoleWarn (err : value)
| ClientIngest (client : obj) (dataset : string) (ev : LogEvent.t)
| ClientFlush (client : obj).

(** The state of a promise once the event loop has run. *)
Inductive promise : Type :=
| Fulfilled (v : value)
| Rejected (reason : value)
| Pending.

(** The platform sections [injectPlatformMetadata] writes. *)
Record PlatformMetadata : Type := {
  meta_platform : option obj;
  meta_vercel : option obj;
  meta_netlify : option obj;
}.

(** What the logger takes from its surroundings: the environment, the
    configurator of [./config], the flag of [./shared], the built-in
    [JSON.stringify] as a text renderer, and the ingestion client of
    [@axiomhq/js], whose [ingest] may throw and whose [flush] may throw or
    return a promise that rejects. The client sees the trace so far. *)
Record Host : Type := {
  AXIOM_LOG_LEVEL : option string;
  Version : string;
  configurator_token : value;
  configurator_axiomUrl : value;
  configurator_dataset : option string;
  isEnvVarsSet : bool;
  isBrowser : bool;
  isNoPrettyPrint : bool;
  platformMetadata : value -> PlatformMetadata;
  JSON_stringify : value -> string;
  client_ingest : list action -> obj -> string -> LogEvent.t -> option value;
  client_flush : list action -> obj -> outcome promise;
}.

(** Modelled from the spec: [configurator.injectPlatformMetadata] lives in
    [./config], which is not part of the sources at hand. The platform
    metadata provider "mutates the event in place with deployment-specific
    fields": it fills the platform sections of the event from the source
    tag and leaves the rest of the event alone. *)
Definition injectPlatformMetadata (h : Host) (ev : LogEvent.t)
    (source : value) : LogEvent.t :=
  let m := platformMetadata h source in
  LogEvent.set_netlify (meta_netlify m)
    (LogEvent.set_vercel (meta_vercel m)
      (LogEvent.set_platform (meta_platform m) ev)).

(** ** The logger store and the computation monad *)

(** A reference to a [Logger] object. *)
Definition loc : Type := nat.

Module Logger.

(** The fields of [class Logger]. [client] is the client built by the
    constructor, stood for by the options it was built with. *)
Record t : Type := mk {
  children : list loc;
  client : obj;
  logLevel : string;
  config : LoggerConfig.t;
  initConfig : LoggerConfig.t;
  clientOpts : option obj;
}.

Definition set_children (c : list loc) (l : t) : t :=
  mk c (client l) (logLevel l) (config l) (initConfig l) (clientOpts l).

Record world : Type := mkWorld {
  heap : list t;
  trace : list action;
}.

(** Computations over the world that return or throw. *)
Definition M (A : Type) : Type := world -> outcome A * world.

#[global] Instance M_ret : MRet M := fun A a w => (Ret a, w).

#[global] Instance M_bind : MBind M := fun A B f m w =>
  match m w with
  | (Ret a, w') => f a w'
  | (Throw e, w') => (Throw e, w')
  end.

Definition throw {A : Type} (e : value) : M A := fun w => (Throw e, w).

(** A step that touches nothing of the world. *)
Definition lift {A : Type} (o : outcome A) : M A := fun w => (o, w).

(** [try { m } catch (err) { handler err }]. *)
Definition try_catch {A : Type} (m : M A) (handler : value -> M A) : M A :=
  fun w =>
    match m w with
    | (Ret a, w') => (Ret a, w')
    | (Throw e, w') => handler e w'
    end.

(** An [async] function never throws to its caller: what its body
    throws rejects the promise it returns. *)
Definition async (body : M promise) : M promise :=
  fun w =>
    match body w with
    | (Ret p, w') => (Ret p, w')
    | (Throw e, w') => (Ret (Rejected e), w')
    end.

Definition emit (a : action) : M unit :=
  fun w => (Ret tt, mkWorld (heap w) (trace w ++ [a])).

Definition get_trace : M (list action) := fun w => (Ret (trace w), w).

Definition TypeError : value :=
  VError "TypeError" "Cannot read properties of undefined" None [].

(** Reading through a reference. A dangling reference cannot arise in
    the program; the model throws there to stay total. *)
Definition deref (this : loc) : M t :=
  fun w =>
    match heap w !! this with
    | Some l => (Ret l, w)
    | None => (Throw (VError "ReferenceError" "dangling" None []), w)
    end.

Definition alloc (l : t) : M loc :=
  fun w => (Ret (length (heap w)), mkWorld (heap w ++ [l]) (trace w)).

(** [this.children.push(child)]. *)
Definition push_child (this child : loc) : M unit :=
  fun w =>
    match heap w !! this with
    | Some l =>
        (Ret tt,
         mkWorld (<[this := set_children (children l ++ [child]) l]> (heap w))
                 (trace w))
    | None => (Throw (VError "ReferenceError" "dangling" None []), w)
    end.

Definition console_log (arguments : list value) : M unit :=
  emit (ConsoleLog arguments).

Definition console_warn (err : value) : M unit :=
  emit (ConsoleWarn err).

(** A default parameter [args = {}]. *)
Definition default_args (args : value) : value :=
  match args with VUndefined => VObj [] | _ => args end.

Section Methods.
Context (h : Host).

(** [const LOG_LEVEL = process.env.AXIOM_LOG_LEVEL || 'debug']. *)
Definition LOG_LEVEL : string :=
  match AXIOM_LOG_LEVEL h with
  | Some s => if String.eqb s "" then "debug" else s
  | None => "debug"
  end.

(** The initializer of the [config] field. *)
Definition default_config : LoggerConfig.t :=
  {| LoggerConfig.args := Absent;
     LoggerConfig.logLevel := Val LogLevel.debug;
     LoggerConfig.source := Val "frontend";
     LoggerConfig.req := Absent |}.

Definition sdk : value := VStr ("next-axiom/v" ++ Version h)%string.

(** The fields the constructor leaves in the new object. The member
    [clientOpts] is the object passed in, which the constructor tags
    with [sdk] in place; without one, the client gets a fresh object
    and the member stays undefined. *)
Definition construct (initConfig : LoggerConfig.t)
    (clientOpts : option obj) : t :=
  let config := LoggerConfig.spread default_config initConfig in
  let logLevel :=
    match LoggerConfig.logLevel config with
    | Val l =>
        if truthy (VNum (LogLevel.value_of l)) then LogLevel.toString l
        else if String.eqb LOG_LEVEL "" then "debug" else LOG_LEVEL
    | _ => if String.eqb LOG_LEVEL "" then "debug" else LOG_LEVEL
    end in
  let opts :=
    match clientOpts with
    | Some o => o
    | None => [("token", configurator_token h);
               ("url", configurator_axiomUrl h)]
    end in
  {| children := [];
     client := obj_set "sdk" sdk opts;
     logLevel := logLevel;
     config := config;
     initConfig := initConfig;
     clientOpts := option_map (obj_set "sdk" sdk) clientOpts |}.

(** [new Logger(initConfig, clientOpts)]. *)
Definition new_Logger (initConfig : LoggerConfig.t)
    (clientOpts : option obj) : M loc :=
  alloc (construct initConfig clientOpts).

(** [with]; the name is a keyword here. *)
Definition with_ (this : loc) (config' : LoggerConfig.t) : M loc :=
  l ← deref this;
  let newConfig := LoggerConfig.spread (config l) config' in
  child ← new_Logger newConfig (clientOpts l);
  push_child this child;;
  mret child.

Definition withArgs (this : loc) (args : value) : M loc :=
  l ← deref this;
  let base :=
    match LoggerConfig.args (config l) with Val a => a | _ => [] end in
  let config' :=
    LoggerConfig.spread (config l)
      {| LoggerConfig.args := Val (spread base (own_enumerable args));
         LoggerConfig.logLevel := Absent;
         LoggerConfig.source := Absent;
         LoggerConfig.req := Absent |} in
  child ← new_Logger config' (clientOpts l);
  push_child this child;;
  mret child.

Definition withRequest (this : loc) (req : value) : M loc :=
  l ← deref this;
  let base :=
    match LoggerConfig.req (config l) with
    | Val r => own_enumerable r
    | _ => []
    end in
  new_Logger
    (LoggerConfig.spread (config l)
       {| LoggerConfig.args := Absent;
          LoggerConfig.logLevel := Absent;
          LoggerConfig.source := Absent;
          LoggerConfig.req :=
            Val (VObj (spread base (own_enumerable req))) |})
    (clientOpts l).

(** *** The console formatter *)

(** [levelColors]: terminal code and browser colour of a level. *)
Definition levelColors : list (string * (string * string)) :=
  [("info", ("32", "lightgreen"));
   ("debug", ("36", "lightblue"));
   ("warn", ("33", "yellow"));
   ("error", ("31", "red"))].

Fixpoint colors_of (level : string)
    (table : list (string * (string * string)))
    : option (string * string) :=
  match table with
  | [] => None
  | (k, c) :: rest =>
      if String.eqb level k then Some c else colors_of level rest
  end.

(** [levelColors[level]] followed by [.terminal] and [.browser]. A
    level the table only inherits from [Object.prototype] reads a member
    that has neither property, and the two come out as the text
    [undefined]; a level that is no key at all reads undefined, on which
    the property read throws. *)
Definition level_colors (level : string) : option (string * string) :=
  match colors_of level levelColors with
  | Some c => Some c
  | None =>
      if inherited level then Some ("undefined", "undefined") else None
  end.

(** The escape character, [\x1b]. *)
Definition ESC : string := String (ascii_of_nat 27) EmptyString.

(** [prettyPrint(ev)]. *)
Definition prettyPrint (ev : LogEvent.t) : M unit :=
  let hasFields :=
    (0 <? length (Object_keys (LogEvent.fields ev)))%nat in
  if isNoPrettyPrint h then
    let msg := (LogEvent.level ev ++ " - " ++ LogEvent.message ev)%string in
    let msg :=
      if hasFields
      then (msg ++ " " ++ JSON_stringify h (VObj (LogEvent.fields ev)))%string
      else msg in
    console_log [VStr msg]
  else
    let args := [VStr (LogEvent.level ev); VStr (LogEvent.message ev)] in
    fmt ← match level_colors (LogEvent.level ev) with
          | None => throw TypeError
          | Some (terminal, browser) =>
              mret (if isBrowser h
                    then ("%c%s - %s",
                          VStr ("color: " ++ browser ++ ";")%string :: args)
                    else ((ESC ++ "[" ++ terminal ++ "m%s" ++ ESC
                               ++ "[0m - %s")%string,
                          args))
          end;
    let msgString := fst fmt in
    let args := snd fmt in
    let '(msgString, args) :=
      if hasFields
      then ((msgString ++ " %o")%string,
            args ++ [VObj (LogEvent.fields ev)])
      else (msgString, args) in
    let '(msgString, args) :=
      match LogEvent.request ev with
      | Some r =>
          if truthy r then ((msgString ++ " %o")%string, args ++ [r])
          else (msgString, args)
      | None => (msgString, args)
      end in
    console_log (VStr msgString :: args).

(** *** Sinks *)

(** [this.client.ingest(dataset, ev)]: the call is made and may
    throw. *)
Definition client_ingest_call (c : obj) (dataset : string)
    (ev : LogEvent.t) : M unit :=
  tr ← get_trace;
  emit (ClientIngest c dataset ev);;
  match client_ingest h tr c dataset ev with
  | Some e => throw e
  | None => mret tt
  end.

(** [this.client.flush()]. *)
Definition client_flush_call (c : obj) : M promise :=
  tr ← get_trace;
  emit (ClientFlush c);;
  match client_flush h tr c with
  | Ret p => mret p
  | Throw e => throw e
  end.

(** [configurator.dataset || 'vercel']. *)
Definition dataset_or_vercel : string :=
  match configurator_dataset h with
  | Some d => if String.eqb d "" then "vercel" else d
  | None => "vercel"
  end.

(** [attachResponseStatus]: its body is commented out in the source,
    so the call does nothing. *)
Definition attachResponseStatus (this : loc) (statusCode : Z) : M unit :=
  mret tt.

(** [private ingest(ev)]. *)
Definition ingest (this : loc) (ev : LogEvent.t) : M unit :=
  if negb (isEnvVarsSet h) then prettyPrint ev
  else
    try_catch
      (l ← deref this;
       client_ingest_call (client l) dataset_or_vercel ev)
      (fun err => console_warn err).

(** [await p] in a [return await p] that sits in a [try]: a rejection
    is thrown into the [catch], a promise that never settles leaves
    the function pending. *)
Definition await_return (p : promise) : M promise :=
  match p with
  | Rejected err => throw err
  | _ => mret p
  end.

(** [flush]. *)
Definition flush (this : loc) : M promise :=
  async
    (try_catch
       (l ← deref this;
        p ← client_flush_call (client l);
        await_return p)
       (fun err => console_warn err;; mret (Fulfilled VUndefined))).

(** *** Event construction *)

(** Lines 119 to 127 of [_log]: the fields of the event from the
    configured fields and the call-site argument. The conversion through
    JSON of line 123 is in no [try]: what it throws is thrown by
    [_log]. *)
Definition build_fields (fields : obj) (args : value) : outcome obj :=
  if instanceof_Error args then
    match args with
    | VError n m st _ =>
        Ret (spread fields
               [("message", VStr m); ("stack", opt_value st);
                ("name", VStr n)])
    | _ => Ret fields
    end
  else if (typeof_object args && negb (is_null args)
           && (0 <? length (Object_keys (own_enumerable args)))%nat)%bool
  then
    match json_roundtrip args with
    | Ret parsedArgs => Ret (spread fields (own_enumerable parsedArgs))
    | Throw e => Throw e
    end
  else if (truthy args
           && truthy (default VUndefined (get_prop args "length")))%bool
  then Ret (spread fields [("args", args)])
  else Ret fields.

(** [LogLevel[level] < LogLevel[this.logLevel]]. *)
Definition below_threshold (level logLevel : string) : bool :=
  js_lt (LogLevel.index level) (LogLevel.index logLevel).

(** The request section, lines 131 to 138. [req.path] is read only
    where [req] is neither undefined nor null, so the read cannot
    throw. *)
Definition attach_request (cfg : LoggerConfig.t) (ev : LogEvent.t)
    : LogEvent.t :=
  let req :=
    match LoggerConfig.req cfg with Val r => r | _ => VUndefined end in
  if nullish req then ev
  else
    let ev := LogEvent.set_request (Some req) ev in
    let path := default VUndefined (get_prop req "path") in
    match LogEvent.platform ev, LogEvent.vercel ev with
    | Some p, _ => LogEvent.set_platform (Some (obj_set "route" path p)) ev
    | None, Some v =>
        LogEvent.set_vercel (Some (obj_set "route" path v)) ev
    | None, None => ev
    end.

(** The event [_log] hands to [ingest], lines 112 to 138, when the
    fields can be built. [now] is what
    [new Date(Date.now()).toISOString()] gives at the call. *)
Definition build_event (l : t) (now : string) (level message : string)
    (args : value) : outcome LogEvent.t :=
  let logEvent :=
    {| LogEvent.level := level;
       LogEvent.message := message;
       LogEvent._time := now;
       LogEvent.fields :=
         match LoggerConfig.args (config l) with
         | Val a => a
         | _ => []
         end;
       LogEvent.request := None;
       LogEvent.platform := None;
       LogEvent.vercel := None;
       LogEvent.netlify := None |} in
  match build_fields (LogEvent.fields logEvent) args with
  | Throw e => Throw e
  | Ret fields =>
      let logEvent := LogEvent.set_fields fields logEvent in
      let logEvent :=
        injectPlatformMetadata h logEvent
          (match LoggerConfig.source (config l) with
           | Val s => VStr s
           | _ => VUndefined
           end) in
      Ret (attach_request (config l) logEvent)
  end.

(** [_log]. *)
Definition _log (this : loc) (now : string) (level message : string)
    (args : value) : M unit :=
  let args := default_args args in
  l ← deref this;
  if below_threshold level (logLevel l) then mret tt
  else
    logEvent ← lift (build_event l now level message args);
    ingest this logEvent.

Definition debug (this : loc) (now message : string) (args : value)
    : M unit :=
  _log this now "debug" message (default_args args).

Definition info (this : loc) (now message : string) (args : value)
    : M unit :=
  _log this now "info" message (default_args args).

Definition warn (this : loc) (now message : string) (args : value)
    : M unit :=
  _log this now "warn" message (default_args args).

Definition error (this : loc) (now message : string) (args : value)
    : M unit :=
  _log this now "error" message (default_args args).
End Methods.
End Logger.

(** ** Vocabulary of the properties *)

(** The four level methods. *)
Inductive method : Type := Mdebug | Minfo | Mwarn | Merror.

Definition method_name (m : method) : string :=
  match m with
  | Mdebug => "debug" | Minfo => "info" | Mwarn => "warn" | Merror => "error"
  end.

Definition method_level (m : method) : LogLevel.t :=
  match m with
  | Mdebug => LogLevel.debug | Minfo => LogLevel.info
  | Mwarn => LogLevel.warn | Merror => LogLevel.error
  end.

(** Calling a level method on the logger at [this]. *)
Definition invoke (h : Host) (m : method) (this : loc) (now message : string)
    (args : value) : Logger.M unit :=
  match m with
  | Mdebug => Logger.debug h this now message args
  | Minfo => Logger.info h this now message args
  | Mwarn => Logger.warn h this now message args
  | Merror => Logger.error h this now message args
  end.

(** A logger as a constructor call left it, up to the children it has
    been given since. *)
Definition constructed (h : Host) (l : Logger.t) : Prop :=
  exists init opts,
    l = Logger.set_children (Logger.children l) (Logger.construct h init opts).

(** The store after a child [c] was built and pushed on the children of
    the logger [l] at [this]. *)
Definition registered (w : Logger.world) (this : loc) (l c : Logger.t)
    : Logger.world :=
  Logger.mkWorld
    (<[this := Logger.set_children
                 (Logger.children l ++ [length (Logger.heap w)]) l]>
       (Logger.heap w) ++ [c])
    (Logger.trace w).

(** Every child reference in the store points into the store. *)
Definition children_in_store (w : Logger.world) : Prop :=
  forall (r : loc) (l : Logger.t),
    Logger.heap w !! r = Some l ->
    forall x, In x (Logger.children l) -> x < length (Logger.heap w).

(** The stores the program can be in: every logger was left by a
    constructor call and every child reference points into the store. *)
Definition store_ok (h : Host) (w : Logger.world) : Prop :=
  (forall (r : loc) (l : Logger.t),
      Logger.heap w !! r = Some l -> constructed h l) /\
  children_in_store w.



(** The reading of the rule for call-site arguments that are not plain
    mappings: a non-empty array is stored under [fields.args]. *)
Definition array_stored_under_args : Prop :=
  forall (fields : obj) (xs : list value),
    xs <> [] ->
    exists f,
      Logger.build_fields fields (VArr xs) = Ret f /\
      obj_get "args" f = Some (VArr xs).

(** Sample surroundings: no platform metadata, an ingestion client whose
    [ingest] throws [ingest_error] when there is one and whose [flush]
    ends as [flush_result]. *)
Definition sample_host (log_level : option string) (env_set : bool)
    (ingest_error : option value) (flush_result : outcome promise) : Host :=
  {| AXIOM_LOG_LEVEL := log_level;
     Version := "0.1.0";
     configurator_token := VStr "token";
     configurator_axiomUrl := VStr "https://api.axiom.co";
     configurator_dataset := None;
     isEnvVarsSet := env_set;
     isBrowser := false;
     isNoPrettyPrint := false;
     platformMetadata :=
       fun _ => {| meta_platform := None; meta_vercel := None;
                   meta_netlify := None |};
     JSON_stringify := fun _ => "{}";
     client_ingest := fun _ _ _ _ => ingest_error;
     client_flush := fun _ _ => flush_result |}.

(** Development: the ingestion environment is not set. *)
Definition dev_host : Host :=
  sample_host None false None (Ret (Fulfilled VUndefined)).

(** Production with the network down: [ingest] throws and the promise of
    [flush] rejects. *)
Definition offline_host : Host :=
  sample_host None true (Some (VStr "ingest failed"))
    (Ret (Rejected (VStr "offline"))).

(** Production with a working client. *)
Definition online_host : Host :=
  sample_host None true None (Ret (Fulfilled VUndefined)).

(** A store holding one logger, built from [init] without client
    options. *)
Definition one_logger (h : Host) (init : LoggerConfig.t) : Logger.world :=
  Logger.mkWorld [Logger.construct h init None] [].

Definition config_with_level (l : LogLevel.t) : LoggerConfig.t :=
  {| LoggerConfig.args := Absent;
     LoggerConfig.logLevel := Val l;
     LoggerConfig.source := Absent;
     LoggerConfig.req := Absent |}.

(** *** Vocabulary of the further properties *)

(** No [Error] instance anywhere in the value. *)
Fixpoint error_free (v : value) : bool :=
  match v with
  | VError _ _ _ _ => false
  | VArr xs => forallb error_free xs
  | VObj ps => forallb (fun kv => error_free (snd kv)) ps
  | _ => true
  end.

(** The values JSON text can carry: null, booleans, numbers, strings,
    and arrays and objects of such. *)
Fixpoint is_json (v : value) : bool :=
  match v with
  | VNull | VBool _ | VNum _ | VStr _ => true
  | VArr xs => forallb is_json xs
  | VObj ps => forallb (fun kv => is_json (snd kv)) ps
  | _ => false
  end.


(** An object as the language builds it: no key twice. *)
Definition keys_unique (o : obj) : Prop := NoDup (Object_keys o).

(** The number of [%] characters of a format string. *)
Fixpoint count_directives (s : string) : nat :=
  match s with
  | EmptyString => 0
  | String c s' =>
      (if Ascii.eqb c "%"%char then 1 else 0) + count_directives s'
  end.

(** Call-site arguments that are neither an [Error], nor an object with
    keys, nor something truthy with a truthy [length]. *)
Definition lengthless (v : value) : bool :=
  match v with
  | VUndefined | VNull | VBool _ | VNum _ => true
  | VStr s => String.eqb s ""
  | VArr xs => match xs with [] => true | _ => false end
  | VObj ps => match ps with [] => true | _ => false end
  | VFun a _ _ => match a with O => true | _ => false end
  | VError _ _ _ _ => false
  end.



(** ** Objects *)

Lemma obj_get_set_eq (k : string) (v : value) (o : obj) :
  obj_get k (obj_set k v o) = Some v.
Proof.
  induction o as [|[k' v'] o IH]; simpl.
  - now rewrite String.eqb_refl.
  - destruct (String.eqb k k') eqn:E; simpl; rewrite ?String.eqb_refl, ?E; auto.
Qed.

Lemma obj_get_set_ne (k k' : string) (v : value) (o : obj) :
  k <> k' -> obj_get k (obj_set k' v o) = obj_get k o.
Proof.
  intros Hne. induction o as [|[k0 v0] o IH]; simpl.
  - destruct (String.eqb k k') eqn:E; [apply String.eqb_eq in E; contradiction | reflexivity].
  - destruct (String.eqb k' k0) eqn:E; simpl.
    + apply String.eqb_eq in E; subst k0.
      destruct (String.eqb k k') eqn:E'; [apply String.eqb_eq in E'; contradiction | reflexivity].
    + now rewrite IH.
Qed.

Lemma obj_get_set (k k' : string) (v : value) (o : obj) :
  obj_get k (obj_set k' v o) = if String.eqb k k' then Some v else obj_get k o.
Proof.
  destruct (String.eqb k k') eqn:E.
  - apply String.eqb_eq in E; subst; apply obj_get_set_eq.
  - apply obj_get_set_ne. now apply String.eqb_neq.
Qed.

(** A key the extension does not have is read from the base. *)
Lemma obj_get_spread_base (k : string) (ext base : obj) :
  obj_get k ext = None -> obj_get k (spread base ext) = obj_get k base.
Proof.
  unfold spread. revert base.
  induction ext as [|[k' v'] ext IH]; intros base Hk; simpl in *; [reflexivity|].
  destruct (String.eqb k k') eqn:E; [discriminate|].
  rewrite IH by assumption. apply obj_get_set_ne. now apply String.eqb_neq.
Qed.

(** The last entry of the extension for a key wins. *)
Lemma obj_get_spread_last (k : string) (v : value) (ext1 ext2 base : obj) :
  obj_get k ext2 = None ->
  obj_get k (spread base (ext1 ++ (k, v) :: ext2)) = Some v.
Proof.
  intros Hk. unfold spread. rewrite fold_left_app. simpl.
  fold (spread (obj_set k v (fold_left (fun acc kv => obj_set (fst kv) (snd kv) acc) ext1 base)) ext2).
  rewrite obj_get_spread_base by assumption. apply obj_get_set_eq.
Qed.

(** ** Running the methods *)

(** Unfolds the operations of the monad in the goal. *)
Ltac run_M :=
  cbv [mbind mret Logger.M_bind Logger.M_ret Logger.try_catch Logger.async
       Logger.deref Logger.alloc Logger.push_child Logger.get_trace
       Logger.emit Logger.throw Logger.console_warn Logger.console_log
       Logger.client_ingest_call Logger.client_flush_call
       Logger.await_return Logger.new_Logger Logger.lift];
  cbn [fst snd Logger.heap Logger.trace].

Section Runs.
Context (h : Host).
Implicit Types (w : Logger.world) (l : Logger.t) (this : loc).

Lemma default_args_idem (args : value) :
  Logger.default_args (Logger.default_args args) = Logger.default_args args.
Proof. now destruct args. Qed.

(** A level method is [_log] at its own name. *)
Lemma invoke_log (m : method) this (now message : string) (args : value) :
  invoke h m this now message args =
  Logger._log h this now (method_name m) message args.
Proof.
  destruct m; unfold invoke, Logger.debug, Logger.info, Logger.warn,
    Logger.error, Logger._log; simpl; now rewrite default_args_idem.
Qed.

(** [_log] on a live logger: nothing below the threshold; otherwise the
    built event goes to [ingest], or what building it threw is thrown. *)
Lemma log_run this l w (now level message : string) (args : value) :
  Logger.heap w !! this = Some l ->
  Logger._log h this now level message args w =
  if Logger.below_threshold level (Logger.logLevel l) then (Ret tt, w)
  else
    match Logger.build_event h l now level message
            (Logger.default_args args) with
    | Ret ev => Logger.ingest h this ev w
    | Throw e => (Throw e, w)
    end.
Proof.
  intros Hl. unfold Logger._log. run_M.
  rewrite Hl. destruct (Logger.below_threshold _ _); [reflexivity|].
  now destruct (Logger.build_event _ _ _ _ _ _).
Qed.

Lemma colors_of_method (m : method) :
  exists c, Logger.colors_of (method_name m) Logger.levelColors = Some c.
Proof. destruct m; eexists; reflexivity. Qed.

Lemma level_colors_own (level : string) (c : string * string) :
  Logger.colors_of level Logger.levelColors = Some c ->
  Logger.level_colors level = Some c.
Proof. intros Hc. unfold Logger.level_colors. now rewrite Hc. Qed.

(** The formatter writes to the console once, whatever the mode, for an
    event whose level is in the colour table. *)
Lemma prettyPrint_once (ev : LogEvent.t) w (c : string * string) :
  Logger.colors_of (LogEvent.level ev) Logger.levelColors = Some c ->
  exists arguments,
    Logger.prettyPrint h ev w =
    (Ret tt, Logger.mkWorld (Logger.heap w)
               (Logger.trace w ++ [ConsoleLog arguments])).
Proof.
  intros Hc. unfold Logger.prettyPrint.
  destruct (isNoPrettyPrint h).
  - eexists; reflexivity.
  - rewrite (level_colors_own _ _ Hc). destruct c as [terminal browser]. run_M.
    destruct (isBrowser h), (0 <? length _)%nat,
      (LogEvent.request ev) as [r|]; simpl;
      try destruct (truthy r); eexists; reflexivity.
Qed.

(** With the environment set the event goes to the client, and what the
    client throws is warned. *)
Lemma ingest_client this l w (ev : LogEvent.t) :
  isEnvVarsSet h = true ->
  Logger.heap w !! this = Some l ->
  Logger.ingest h this ev w =
  (Ret tt,
   Logger.mkWorld (Logger.heap w)
     (Logger.trace w ++
      ClientIngest (Logger.client l) (Logger.dataset_or_vercel h) ev ::
      match client_ingest h (Logger.trace w) (Logger.client l)
              (Logger.dataset_or_vercel h) ev with
      | Some e => [ConsoleWarn e]
      | None => []
      end)).
Proof.
  intros Hset Hl. unfold Logger.ingest. rewrite Hset. simpl.
  run_M. rewrite Hl. run_M.
  destruct (client_ingest h _ _ _ _) as [e|]; run_M.
  - now rewrite <- app_assoc.
  - reflexivity.
Qed.

(** With the environment unset the event goes to the formatter. *)
Lemma ingest_console this w (ev : LogEvent.t) :
  isEnvVarsSet h = false ->
  Logger.ingest h this ev w = Logger.prettyPrint h ev w.
Proof. intros Hset. unfold Logger.ingest. now rewrite Hset. Qed.

(** The event that is built has the level, the message and the time of
    the call, and the fields [build_fields] returned. *)
Lemma build_event_ret l (now level message : string) (args : value)
    (ev : LogEvent.t) :
  Logger.build_event h l now level message args = Ret ev ->
  LogEvent.level ev = level /\
  LogEvent.message ev = message /\
  LogEvent._time ev = now /\
  Logger.build_fields
    (match LoggerConfig.args (Logger.config l) with
     | Val a => a
     | _ => []
     end) args = Ret (LogEvent.fields ev).
Proof.
  unfold Logger.build_event. cbn [LogEvent.fields].
  destruct (Logger.build_fields _ args) as [f|e]; [|discriminate].
  intros [= <-].
  unfold Logger.attach_request, injectPlatformMetadata.
  simpl. destruct (nullish _); [repeat split|].
  simpl. destruct (meta_platform _); [repeat split|].
  destruct (meta_vercel _); repeat split.
Qed.

Lemma build_event_level l (now level message : string) (args : value)
    (ev : LogEvent.t) :
  Logger.build_event h l now level message args = Ret ev ->
  LogEvent.level ev = level.
Proof. intros H. now apply build_event_ret in H. Qed.

(** An event is built exactly when the fields are. *)
Lemma build_event_of_fields l (now level message : string) (args : value)
    (f : obj) :
  Logger.build_fields
    (match LoggerConfig.args (Logger.config l) with
     | Val a => a
     | _ => []
     end) args = Ret f ->
  exists ev,
    Logger.build_event h l now level message args = Ret ev /\
    LogEvent.fields ev = f.
Proof.
  intros Hf.
  destruct (Logger.build_event h l now level message args) as [ev|e] eqn:Hev.
  - exists ev. split; [reflexivity|].
    apply build_event_ret in Hev as (_ & _ & _ & Hf').
    rewrite Hf in Hf'. now injection Hf' as ->.
  - unfold Logger.build_event in Hev. cbn [LogEvent.fields] in Hev.
    now rewrite Hf in Hev.
Qed.

(** A call without argument always builds its event. *)
Lemma build_event_no_argument l (now level message : string) :
  exists ev,
    Logger.build_event h l now level message (VObj []) = Ret ev /\
    LogEvent.level ev = level /\
    LogEvent.fields ev =
      match LoggerConfig.args (Logger.config l) with
      | Val a => a
      | _ => []
      end.
Proof.
  destruct (build_event_of_fields l now level message (VObj []) _ eq_refl)
    as (ev & Hev & Hf).
  exists ev. split; [exact Hev|]. split; [|exact Hf].
  now apply build_event_level in Hev.
Qed.

Lemma build_event_throws l (now level message : string) (args : value)
    (e : value) :
  Logger.build_fields
    (match LoggerConfig.args (Logger.config l) with
     | Val a => a
     | _ => []
     end) args = Throw e ->
  Logger.build_event h l now level message args = Throw e.
Proof.
  intros Hf. unfold Logger.build_event. cbn [LogEvent.fields].
  now rewrite Hf.
Qed.
End Runs.

(** ** The level filter *)

(** A threshold given by name orders the levels as the enum does. *)
Lemma named_threshold_filters (m : method) (l2 : LogLevel.t) :
  (LogLevel.value_of (method_level m) < LogLevel.value_of l2)%Z ->
  Logger.below_threshold (method_name m) (LogLevel.name_of l2) = true.
Proof. destruct m, l2; simpl; intros H; try lia; reflexivity. Qed.

Lemma named_threshold_passes (m : method) (l2 : LogLevel.t) :
  (LogLevel.value_of l2 <= LogLevel.value_of (method_level m))%Z ->
  Logger.below_threshold (method_name m) (LogLevel.name_of l2) = false.
Proof. destruct m, l2; simpl; intros H; try lia; reflexivity. Qed.

(** The constructor takes the threshold from the environment when the
    configuration gives no level, or gives [debug], which is 0. *)
Lemma construct_logLevel_env (h : Host) (init : LoggerConfig.t)
    (opts : option obj) :
  match LoggerConfig.logLevel init with
  | Val l => l = LogLevel.debug
  | _ => True
  end ->
  Logger.logLevel (Logger.construct h init opts) = Logger.LOG_LEVEL h.
Proof.
  intros H. unfold Logger.construct.
  assert (Hne : String.eqb (Logger.LOG_LEVEL h) "" = false).
  { unfold Logger.LOG_LEVEL. destruct (AXIOM_LOG_LEVEL h) as [s|]; [|reflexivity].
    destruct (String.eqb s "") eqn:E; [reflexivity | exact E]. }
  unfold LoggerConfig.spread, merge_slot;
    cbn [LoggerConfig.logLevel Logger.logLevel Logger.default_config].
  destruct (LoggerConfig.logLevel init) as [| |l]; [| |subst l];
    cbn [truthy LogLevel.value_of Z.eqb negb]; now rewrite Hne.
Qed.

(** With the threshold named in the environment, a call below it changes
    nothing. *)
Lemma env_threshold_noop (h : Host) (init : LoggerConfig.t)
    (opts : option obj) (cs : list loc) (l2 : LogLevel.t) (m : method)
    (this : loc) (w : Logger.world) (now message : string) (args : value) :
  AXIOM_LOG_LEVEL h = Some (LogLevel.name_of l2) ->
  match LoggerConfig.logLevel init with
  | Val l => l = LogLevel.debug
  | _ => True
  end ->
  Logger.heap w !! this =
    Some (Logger.set_children cs (Logger.construct h init opts)) ->
  (LogLevel.value_of (method_level m) < LogLevel.value_of l2)%Z ->
  invoke h m this now message args w = (Ret tt, w).
Proof.
  intros Henv Hcfg Hl Hlt.
  rewrite invoke_log, (log_run h _ _ _ _ _ _ _ Hl).
  change (Logger.logLevel (Logger.set_children cs (Logger.construct h init opts)))
    with (Logger.logLevel (Logger.construct h init opts)).
  rewrite construct_logLevel_env by assumption.
  unfold Logger.LOG_LEVEL. rewrite Henv.
  replace (String.eqb (LogLevel.name_of l2) "") with false by now destruct l2.
  now rewrite named_threshold_filters.
Qed.

(** A level other than [debug] given in the configuration is stored as
    the text of its number, which the enum object maps back to a name:
    the comparison is then with NaN and no level method is filtered. *)
Lemma configured_threshold_never_filters (h : Host) (init : LoggerConfig.t)
    (opts : option obj) (l2 : LogLevel.t) (m : method) :
  LoggerConfig.logLevel init = Val l2 ->
  l2 <> LogLevel.debug ->
  Logger.below_threshold (method_name m)
    (Logger.logLevel (Logger.construct h init opts)) = false.
Proof.
  intros Hcfg Hne. unfold Logger.construct; simpl. rewrite Hcfg; simpl.
  destruct l2; try congruence; destruct m; vm_compute; reflexivity.
Qed.

(** C1, at a logger configured with [logLevel: LogLevel.error]: a call of
    [debug], which is below [error], is not dropped. It returns after
    leaving a console write or a client call in the trace. *)
Theorem C1_configured_level_not_applied (h : Host) (now message : string) :
  exists w',
    Logger.debug h 0 now message VUndefined
      (one_logger h (config_with_level LogLevel.error)) = (Ret tt, w') /\
    Logger.trace w' <> [].
Proof.
  change (Logger.debug h 0 now message VUndefined)
    with (invoke h Mdebug 0 now message VUndefined).
  rewrite invoke_log.
  rewrite (log_run h 0 (Logger.construct h (config_with_level LogLevel.error) None))
    by reflexivity.
  rewrite (configured_threshold_never_filters h _ None LogLevel.error Mdebug)
    by (reflexivity || discriminate).
  destruct (build_event_no_argument h
              (Logger.construct h (config_with_level LogLevel.error) None)
              now "debug" message) as (ev & Hev & Hlev & _).
  cbn [Logger.default_args method_name]. rewrite Hev.
  destruct (isEnvVarsSet h) eqn:Hset.
  - rewrite (ingest_client h 0
               (Logger.construct h (config_with_level LogLevel.error) None)
               (one_logger h (config_with_level LogLevel.error)) _ Hset eq_refl).
    eexists; split; [reflexivity|]. simpl. discriminate.
  - rewrite (ingest_console h _ _ _ Hset).
    destruct (prettyPrint_once h ev
                (one_logger h (config_with_level LogLevel.error))
                ("36", "lightblue")) as [arguments Hp];
      [now rewrite Hlev|].
    rewrite Hp. eexists; split; [reflexivity|]. simpl. discriminate.
Qed.

(** ** Flush *)

(** C2: [flush] returns a promise that does not reject. When the client's
    [flush] throws or its promise rejects, the error is warned to the
    console and the promise is fulfilled; otherwise the promise ends as the
    client's does. The logger store is left as it was. *)
Theorem C2_flush_never_rejects (h : Host) (this : loc) (l : Logger.t)
    (w : Logger.world) :
  Logger.heap w !! this = Some l ->
  exists p w',
    Logger.flush h this w = (Ret p, w') /\
    (forall e, p <> Rejected e) /\
    Logger.heap w' = Logger.heap w /\
    match client_flush h (Logger.trace w) (Logger.client l) with
    | Throw e | Ret (Rejected e) =>
        p = Fulfilled VUndefined /\
        Logger.trace w' =
          Logger.trace w ++ [ClientFlush (Logger.client l); ConsoleWarn e]
    | Ret p0 =>
        p = p0 /\
        Logger.trace w' = Logger.trace w ++ [ClientFlush (Logger.client l)]
    end.
Proof.
  intros Hl. unfold Logger.flush. run_M. rewrite Hl. run_M.
  destruct (client_flush h (Logger.trace w) (Logger.client l)) as [[v|e|]|e];
    run_M; do 2 eexists; (split; [reflexivity|]);
    repeat split; try discriminate; simpl; now rewrite <- ?app_assoc.
Qed.

(** C2 at a client whose flush promise rejects. *)
Lemma C2_flush_never_rejects_witness :
  exists p w',
    Logger.flush offline_host 0 (one_logger offline_host LoggerConfig.empty)
    = (Ret p, w') /\ p = Fulfilled VUndefined.
Proof.
  destruct (C2_flush_never_rejects offline_host 0
              (Logger.construct offline_host LoggerConfig.empty None)
              (one_logger offline_host LoggerConfig.empty) eq_refl)
    as (p & w' & Hrun & _ & _ & Hp & _).
  exists p, w'. split; assumption.
Defined.

(** ** The sinks *)

(** What building the event throws, the level method throws, before any
    sink is reached: nothing is written and nothing is sent. *)
Lemma conversion_throw_propagates (h : Host) (m : method) (this : loc)
    (l : Logger.t) (w : Logger.world) (now message : string) (args e : value) :
  Logger.heap w !! this = Some l ->
  Logger.below_threshold (method_name m) (Logger.logLevel l) = false ->
  Logger.build_event h l now (method_name m) message
    (Logger.default_args args) = Throw e ->
  invoke h m this now message args w = (Throw e, w).
Proof.
  intros Hl Hpass Hev.
  now rewrite invoke_log, (log_run h _ _ _ _ _ _ _ Hl), Hpass, Hev.
Qed.




(** C4: when the client's [ingest] throws on the event of a level-method
    call, the level method still returns to its caller; the trace shows
    the call of the client followed by the warning that carries the
    error, and the store is unchanged. *)
Theorem C4_ingest_error_swallowed (h : Host) (m : method) (this : loc)
    (l : Logger.t) (w : Logger.world) (now message : string) (args : value)
    (ev : LogEvent.t) (e : value) :
  isEnvVarsSet h = true ->
  Logger.heap w !! this = Some l ->
  Logger.below_threshold (method_name m) (Logger.logLevel l) = false ->
  Logger.build_event h l now (method_name m) message
    (Logger.default_args args) = Ret ev ->
  client_ingest h (Logger.trace w) (Logger.client l)
    (Logger.dataset_or_vercel h) ev = Some e ->
  invoke h m this now message args w =
    (Ret tt,
     Logger.mkWorld (Logger.heap w)
       (Logger.trace w ++
        [ClientIngest (Logger.client l) (Logger.dataset_or_vercel h) ev;
         ConsoleWarn e])).
Proof.
  intros Hset Hl Hpass Hev Hthrow.
  now rewrite invoke_log, (log_run h _ _ _ _ _ _ _ Hl), Hpass, Hev,
    (ingest_client h _ _ _ _ Hset Hl), Hthrow.
Qed.

(** C4 at [error("x")] with the network down. *)
Lemma C4_ingest_error_swallowed_witness :
  exists w',
    invoke offline_host Merror 0 "2024-01-01T00:00:00.000Z" "x" VUndefined
      (one_logger offline_host LoggerConfig.empty) = (Ret tt, w').
Proof.
  eexists.
  eapply (C4_ingest_error_swallowed offline_host Merror 0
            (Logger.construct offline_host LoggerConfig.empty None)
            (one_logger offline_host LoggerConfig.empty)
            "2024-01-01T00:00:00.000Z" "x" VUndefined);
    reflexivity.
Defined.

(** A level method returns to its caller unless building the event
    throws, which it then throws on, the world being as it was. *)
Lemma level_method_outcome (h : Host) (m : method) (this : loc)
    (l : Logger.t) (w : Logger.world) (now message : string) (args : value) :
  Logger.heap w !! this = Some l ->
  (exists w', invoke h m this now message args w = (Ret tt, w')) \/
  (exists e,
      Logger.build_event h l now (method_name m) message
        (Logger.default_args args) = Throw e /\
      invoke h m this now message args w = (Throw e, w)).
Proof.
  intros Hl. rewrite invoke_log, (log_run h _ _ _ _ _ _ _ Hl).
  destruct (Logger.below_threshold _ _); [left; eexists; reflexivity|].
  destruct (Logger.build_event _ _ _ _ _ _) as [ev|e] eqn:Hev;
    [left | right; exists e; now split].
  destruct (isEnvVarsSet h) eqn:Hset.
  - rewrite (ingest_client h _ _ _ _ Hset Hl). eexists; reflexivity.
  - rewrite (ingest_console h _ _ _ Hset).
    destruct (colors_of_method m) as [c Hc].
    destruct (prettyPrint_once h ev w c) as [arguments Hp].
    { now rewrite (build_event_level h _ _ _ _ _ _ Hev). }
    rewrite Hp. eexists; reflexivity.
Qed.

(** ** The fields of an event *)

(** The fields an [Error] argument gives: the configured fields with
    [message], [stack] and [name] written over them. *)
Lemma build_fields_error (base : obj) (n msg : string) (st : option string)
    (ps : obj) :
  Logger.build_fields base (VError n msg st ps) =
  Ret (spread base
         [("message", VStr msg); ("stack", opt_value st); ("name", VStr n)]).
Proof. reflexivity. Qed.

(** A non-empty object that is no [Error], an array included, is taken
    through JSON and what comes back is spread; what the conversion
    throws is thrown. *)
Lemma build_fields_object (base : obj) (args : value) :
  instanceof_Error args = false ->
  typeof_object args = true ->
  own_enumerable args <> [] ->
  Logger.build_fields base args =
  match json_roundtrip args with
  | Ret parsedArgs => Ret (spread base (own_enumerable parsedArgs))
  | Throw e => Throw e
  end.
Proof.
  intros Herr Hobj Hne. unfold Logger.build_fields. rewrite Herr, Hobj.
  assert (Hnull : is_null args = false).
  { destruct args; try reflexivity. now contradiction Hne. }
  assert (Hkeys : (0 <? length (Object_keys (own_enumerable args)))%nat = true).
  { destruct (own_enumerable args); [contradiction | reflexivity]. }
  now rewrite Hnull, Hkeys.
Qed.

(** A number or a boolean has no [length]: it is dropped. *)
Lemma build_fields_number (base : obj) (n : Z) :
  Logger.build_fields base (VNum n) = Ret base.
Proof.
  unfold Logger.build_fields; simpl. now rewrite andb_false_r.
Qed.

(** A non-empty string is stored under [args]. *)
Lemma build_fields_string (base : obj) (s : string) :
  s <> "" ->
  Logger.build_fields base (VStr s) = Ret (spread base [("args", VStr s)]).
Proof.
  intros Hne. unfold Logger.build_fields; simpl.
  destruct s as [|c s]; [contradiction|]. reflexivity.
Qed.

(** C5: an [error(msg, err)] call with an [Error] instance that passes the
    level filter hands [ingest] an event whose fields hold [message],
    [stack] and [name] as read from the error; every other key is read
    from the configured fields, so the error object is in the fields only
    where the configured fields already held it. *)
Theorem C5_error_argument_decomposed (h : Host) (this : loc) (l : Logger.t)
    (w : Logger.world) (now message : string)
    (n msg : string) (st : option string) (ps : obj) :
  Logger.heap w !! this = Some l ->
  Logger.below_threshold "error" (Logger.logLevel l) = false ->
  let err := VError n msg st ps in
  let base :=
    match LoggerConfig.args (Logger.config l) with Val a => a | _ => [] end in
  exists ev,
    Logger.error h this now message err w = Logger.ingest h this ev w /\
    obj_get "message" (LogEvent.fields ev) = Some (VStr msg) /\
    obj_get "stack" (LogEvent.fields ev) = Some (opt_value st) /\
    obj_get "name" (LogEvent.fields ev) = Some (VStr n) /\
    (forall k, k <> "message" -> k <> "stack" -> k <> "name" ->
               obj_get k (LogEvent.fields ev) = obj_get k base) /\
    ((forall k, obj_get k base <> Some err) ->
     forall k, obj_get k (LogEvent.fields ev) <> Some err).
Proof.
  intros Hl Hpass err base.
  destruct (build_event_of_fields h l now "error" message err _
              (build_fields_error base n msg st ps)) as (ev & Hev & Hf).
  exists ev.
  assert (Hm : obj_get "message"
                 (spread base [("message", VStr msg); ("stack", opt_value st);
                               ("name", VStr n)]) = Some (VStr msg)).
  { apply (obj_get_spread_last "message" _ [] ). reflexivity. }
  assert (Hs : obj_get "stack"
                 (spread base [("message", VStr msg); ("stack", opt_value st);
                               ("name", VStr n)]) = Some (opt_value st)).
  { apply (obj_get_spread_last "stack" _ [("message", VStr msg)]). reflexivity. }
  assert (Hn : obj_get "name"
                 (spread base [("message", VStr msg); ("stack", opt_value st);
                               ("name", VStr n)]) = Some (VStr n)).
  { apply (obj_get_spread_last "name" _
             [("message", VStr msg); ("stack", opt_value st)]). reflexivity. }
  assert (Ho : forall k, k <> "message" -> k <> "stack" -> k <> "name" ->
               obj_get k (spread base [("message", VStr msg);
                                       ("stack", opt_value st);
                                       ("name", VStr n)]) = obj_get k base).
  { intros k H1 H2 H3. apply obj_get_spread_base. simpl.
    apply String.eqb_neq in H1, H2, H3. now rewrite H1, H2, H3. }
  rewrite Hf. repeat split; try assumption.
  - change (Logger.error h this now message err)
      with (invoke h Merror this now message err).
    rewrite invoke_log, (log_run h _ _ _ _ _ _ _ Hl).
    simpl method_name.
    change (Logger.default_args err) with err.
    now rewrite Hpass, Hev.
  - intros Hbase k.
    destruct (string_dec k "message") as [->|H1]; [rewrite Hm; discriminate|].
    destruct (string_dec k "stack") as [->|H2].
    { rewrite Hs. destruct st; discriminate. }
    destruct (string_dec k "name") as [->|H3]; [rewrite Hn; discriminate|].
    rewrite Ho by assumption. apply Hbase.
Qed.

(** C5 at [error("failed", new Error("boom"))] on a fresh logger. *)
Lemma C5_error_argument_decomposed_witness :
  exists ev,
    Logger.error online_host 0 "2024-01-01T00:00:00.000Z" "failed"
      (VError "Error" "boom" (Some "Error: boom at <anonymous>") [])
      (one_logger online_host LoggerConfig.empty) =
    Logger.ingest online_host 0 ev (one_logger online_host LoggerConfig.empty)
    /\ obj_get "message" (LogEvent.fields ev) = Some (VStr "boom").
Proof.
  destruct (C5_error_argument_decomposed online_host 0
              (Logger.construct online_host LoggerConfig.empty None)
              (one_logger online_host LoggerConfig.empty)
              "2024-01-01T00:00:00.000Z" "failed"
              "Error" "boom" (Some "Error: boom at <anonymous>") []
              eq_refl eq_refl) as (ev & Hrun & Hm & _).
  exists ev. split; assumption.
Defined.

(** A non-empty array never lands under [fields.args] of an empty field
    set: it is an object with keys, so its elements are spread under
    their indices. *)
Lemma array_not_stored_under_args : ~ array_stored_under_args.
Proof.
  intros H.
  assert (Hne : [VNum 1; VNum 2] <> []) by discriminate.
  destruct (H [] [VNum 1; VNum 2] Hne) as (f & Hf & Hargs).
  vm_compute in Hf. injection Hf as <-. discriminate.
Qed.

(** C6, at [info("m", [1, 2])] on a fresh logger with a working client:
    the event that reaches the client has the fields [{ "0": 1, "1": 2 }]
    and no [args] key. *)
Theorem C6_array_argument_is_spread :
  exists c ev,
    Logger.info online_host 0 "2024-01-01T00:00:00.000Z" "m"
      (VArr [VNum 1; VNum 2]) (one_logger online_host LoggerConfig.empty) =
    (Ret tt,
     Logger.mkWorld (Logger.heap (one_logger online_host LoggerConfig.empty))
       [ClientIngest c "vercel" ev]) /\
    LogEvent.fields ev = [("0", VNum 1); ("1", VNum 2)] /\
    obj_get "args" (LogEvent.fields ev) = None.
Proof. do 2 eexists. split; [vm_compute; reflexivity|]. split; reflexivity. Qed.




(** ** Child loggers *)

Section Children.
Context (h : Host).
Implicit Types (w : Logger.world) (l c : Logger.t) (this : loc).

Lemma construct_then_push w this l c :
  Logger.heap w !! this = Some l ->
  (child ← Logger.alloc c; Logger.push_child this child;; mret child) w =
  (Ret (length (Logger.heap w)), registered w this l c).
Proof.
  intros Hl. run_M.
  rewrite (lookup_app_l_Some _ _ _ _ Hl).
  unfold registered. rewrite insert_app_l by (eapply lookup_lt_Some; eauto).
  reflexivity.
Qed.

Lemma registered_child w this l c :
  Logger.heap (registered w this l c) !! length (Logger.heap w) = Some c.
Proof.
  unfold registered; simpl. apply list_lookup_middle.
  now rewrite length_insert.
Qed.

Lemma registered_parent w this l c :
  Logger.heap w !! this = Some l ->
  Logger.heap (registered w this l c) !! this =
  Some (Logger.set_children
          (Logger.children l ++ [length (Logger.heap w)]) l).
Proof.
  intros Hl. unfold registered; simpl.
  apply lookup_app_l_Some, list_lookup_insert_eq.
  eapply lookup_lt_Some; eauto.
Qed.

Lemma with_run w this l (cfg : LoggerConfig.t) :
  Logger.heap w !! this = Some l ->
  Logger.with_ h this cfg w =
  (Ret (length (Logger.heap w)),
   registered w this l
     (Logger.construct h (LoggerConfig.spread (Logger.config l) cfg)
        (Logger.clientOpts l))).
Proof.
  intros Hl. rewrite <- (construct_then_push w this l _ Hl).
  unfold Logger.with_. run_M. now rewrite Hl.
Qed.

Lemma withArgs_run w this l (args : value) :
  Logger.heap w !! this = Some l ->
  Logger.withArgs h this args w =
  (Ret (length (Logger.heap w)),
   registered w this l
     (Logger.construct h
        (LoggerConfig.spread (Logger.config l)
           {| LoggerConfig.args :=
                Val (spread
                       (match LoggerConfig.args (Logger.config l) with
                        | Val a => a
                        | _ => []
                        end) (own_enumerable args));
              LoggerConfig.logLevel := Absent;
              LoggerConfig.source := Absent;
              LoggerConfig.req := Absent |})
        (Logger.clientOpts l))).
Proof.
  intros Hl. rewrite <- (construct_then_push w this l _ Hl).
  unfold Logger.withArgs. run_M. now rewrite Hl.
Qed.

Lemma withRequest_run w this l (req : value) :
  Logger.heap w !! this = Some l ->
  Logger.withRequest h this req w =
  (Ret (length (Logger.heap w)),
   Logger.mkWorld
     (Logger.heap w ++
      [Logger.construct h
         (LoggerConfig.spread (Logger.config l)
            {| LoggerConfig.args := Absent;
               LoggerConfig.logLevel := Absent;
               LoggerConfig.source := Absent;
               LoggerConfig.req :=
                 Val (VObj (spread
                              (match LoggerConfig.req (Logger.config l) with
                               | Val r => own_enumerable r
                               | _ => []
                               end) (own_enumerable req))) |})
         (Logger.clientOpts l)])
     (Logger.trace w)).
Proof.
  intros Hl. unfold Logger.withRequest. run_M. now rewrite Hl.
Qed.

(** The constructor leaves the keys [logLevel] and [source] in the
    configuration, whatever it was given. *)
Lemma constructed_defaults l :
  constructed h l ->
  LoggerConfig.logLevel (Logger.config l) <> Absent /\
  LoggerConfig.source (Logger.config l) <> Absent.
Proof.
  intros (init & opts & ->); simpl.
  destruct (LoggerConfig.logLevel init), (LoggerConfig.source init);
    split; discriminate.
Qed.

Lemma construct_constructed (init : LoggerConfig.t) (opts : option obj) :
  constructed h (Logger.construct h init opts).
Proof. now exists init, opts. Qed.

(** Over a configuration that has both keys the defaults of the
    constructor add nothing. *)
Lemma spread_default_config (cfg : LoggerConfig.t) :
  LoggerConfig.logLevel cfg <> Absent ->
  LoggerConfig.source cfg <> Absent ->
  LoggerConfig.spread Logger.default_config cfg = cfg.
Proof.
  destruct cfg as [a ll s r]; simpl; intros Hl Hs.
  unfold LoggerConfig.spread; simpl.
  destruct a, ll, s, r; simpl; congruence.
Qed.

Lemma merge_slot_present {A : Type} (base over : slot A) :
  base <> Absent -> merge_slot base over <> Absent.
Proof. destruct over; simpl; congruence. Qed.

(** The configuration of a child built from a merge over the
    configuration of a constructed logger is that merge. *)
Lemma child_config l (over : LoggerConfig.t) (opts : option obj) :
  constructed h l ->
  Logger.config
    (Logger.construct h (LoggerConfig.spread (Logger.config l) over) opts) =
  LoggerConfig.spread (Logger.config l) over.
Proof.
  intros Hc. destruct (constructed_defaults l Hc) as [Hl Hs].
  unfold Logger.construct; simpl.
  apply spread_default_config; simpl; now apply merge_slot_present.
Qed.
End Children.

(** ** Reachable stores *)

Lemma constructed_set_children (h : Host) (l : Logger.t) (cs : list loc) :
  constructed h l -> constructed h (Logger.set_children cs l).
Proof.
  intros (init & opts & Hl). exists init, opts. now rewrite Hl.
Qed.

Lemma one_logger_ok (h : Host) (init : LoggerConfig.t) :
  store_ok h (one_logger h init).
Proof.
  split.
  - intros [|r] l Hr; simpl in Hr; [|discriminate].
    injection Hr as <-. apply construct_constructed.
  - intros [|r] l Hr; simpl in Hr; [|discriminate].
    injection Hr as <-. intros x [].
Qed.

(** Pushing a fresh child keeps the store well formed. *)
Lemma registered_ok (h : Host) (w : Logger.world) (this : loc)
    (l c : Logger.t) :
  store_ok h w ->
  Logger.heap w !! this = Some l ->
  constructed h c ->
  Logger.children c = [] ->
  store_ok h (registered w this l c).
Proof.
  intros [Hcons Hch] Hl Hc Hnil. split.
  - intros r l0 Hr. unfold registered in Hr; cbn [Logger.heap] in Hr.
    apply lookup_app_Some in Hr as [Hr | [_ Hr]].
    + apply list_lookup_insert_Some in Hr as [(_ & <- & _) | [_ Hr]].
      * apply constructed_set_children. eauto.
      * eauto.
    + apply list_lookup_singleton_Some in Hr as [_ <-]. exact Hc.
  - intros r l0 Hr x Hin. unfold registered in *; cbn [Logger.heap] in *.
    rewrite length_app, length_insert; simpl.
    apply lookup_app_Some in Hr as [Hr | [_ Hr]].
    + apply list_lookup_insert_Some in Hr as [(_ & <- & _) | [_ Hr]].
      * simpl in Hin. apply in_app_or in Hin as [Hin | [<- | []]]; [|lia].
        specialize (Hch this l Hl x Hin). lia.
      * specialize (Hch r l0 Hr x Hin). lia.
    + apply list_lookup_singleton_Some in Hr as [_ <-].
      rewrite Hnil in Hin. destruct Hin.
Qed.

Lemma with_ok (h : Host) (w : Logger.world) (this : loc) (l : Logger.t)
    (overrides : LoggerConfig.t) :
  store_ok h w ->
  Logger.heap w !! this = Some l ->
  store_ok h (snd (Logger.with_ h this overrides w)).
Proof.
  intros Hok Hl. rewrite (with_run h w this l overrides Hl); simpl.
  apply registered_ok; auto using construct_constructed.
Qed.

Lemma withArgs_ok (h : Host) (w : Logger.world) (this : loc) (l : Logger.t)
    (args : value) :
  store_ok h w ->
  Logger.heap w !! this = Some l ->
  store_ok h (snd (Logger.withArgs h this args w)).
Proof.
  intros Hok Hl. rewrite (withArgs_run h w this l args Hl); simpl.
  apply registered_ok; auto using construct_constructed.
Qed.

Lemma withRequest_ok (h : Host) (w : Logger.world) (this : loc)
    (l : Logger.t) (req : value) :
  store_ok h w ->
  Logger.heap w !! this = Some l ->
  store_ok h (snd (Logger.withRequest h this req w)).
Proof.
  intros [Hcons Hch] Hl. rewrite (withRequest_run h w this l req Hl); simpl.
  split.
  - intros r l0 Hr; cbn [Logger.heap] in Hr.
    apply lookup_app_Some in Hr as [Hr | [_ Hr]]; [eauto|].
    apply list_lookup_singleton_Some in Hr as [_ <-].
    apply construct_constructed.
  - intros r l0 Hr x Hin; cbn [Logger.heap] in *.
    rewrite length_app; simpl.
    apply lookup_app_Some in Hr as [Hr | [_ Hr]].
    + specialize (Hch r l0 Hr x Hin). lia.
    + apply list_lookup_singleton_Some in Hr as [_ <-]. destruct Hin.
Qed.

(** The level methods do not touch the store. *)
Lemma invoke_keeps_store (h : Host) (m : method) (this : loc)
    (l : Logger.t) (w : Logger.world) (now message : string) (args : value) :
  Logger.heap w !! this = Some l ->
  Logger.heap (snd (invoke h m this now message args w)) = Logger.heap w.
Proof.
  intros Hl. rewrite invoke_log, (log_run h _ _ _ _ _ _ _ Hl).
  destruct (Logger.below_threshold _ _); [reflexivity|].
  destruct (Logger.build_event _ _ _ _ _ _) as [ev|e] eqn:Hev;
    [|reflexivity].
  destruct (isEnvVarsSet h) eqn:Hset.
  - now rewrite (ingest_client h _ _ _ _ Hset Hl).
  - rewrite (ingest_console h _ _ _ Hset).
    destruct (colors_of_method m) as [c Hc].
    destruct (prettyPrint_once h ev w c) as [arguments Hp].
    { now rewrite (build_event_level h _ _ _ _ _ _ Hev). }
    now rewrite Hp.
Qed.

(** C7: [with(configOverrides)] on a logger returns a fresh logger whose
    configuration is the receiver's with the keys of the overrides written
    over it: key by key, a key the overrides do not have is the
    receiver's, a key they have is theirs. The new logger is appended to
    the receiver's children; the receiver's configuration stays as it
    was. *)
Theorem C7_with_merges_and_registers (h : Host) (this : loc) (l : Logger.t)
    (w : Logger.world) (overrides : LoggerConfig.t) :
  Logger.heap w !! this = Some l ->
  constructed h l ->
  exists child w' c l',
    Logger.with_ h this overrides w = (Ret child, w') /\
    Logger.heap w !! child = None /\
    Logger.heap w' !! child = Some c /\
    Logger.config c = LoggerConfig.spread (Logger.config l) overrides /\
    Logger.heap w' !! this = Some l' /\
    Logger.children l' = Logger.children l ++ [child] /\
    Logger.config l' = Logger.config l /\
    (LoggerConfig.args overrides = Absent ->
     LoggerConfig.args (Logger.config c) =
     LoggerConfig.args (Logger.config l)) /\
    (LoggerConfig.args overrides <> Absent ->
     LoggerConfig.args (Logger.config c) = LoggerConfig.args overrides) /\
    (LoggerConfig.logLevel overrides = Absent ->
     LoggerConfig.logLevel (Logger.config c) =
     LoggerConfig.logLevel (Logger.config l)) /\
    (LoggerConfig.logLevel overrides <> Absent ->
     LoggerConfig.logLevel (Logger.config c) =
     LoggerConfig.logLevel overrides) /\
    (LoggerConfig.source overrides = Absent ->
     LoggerConfig.source (Logger.config c) =
     LoggerConfig.source (Logger.config l)) /\
    (LoggerConfig.source overrides <> Absent ->
     LoggerConfig.source (Logger.config c) = LoggerConfig.source overrides) /\
    (LoggerConfig.req overrides = Absent ->
     LoggerConfig.req (Logger.config c) =
     LoggerConfig.req (Logger.config l)) /\
    (LoggerConfig.req overrides <> Absent ->
     LoggerConfig.req (Logger.config c) = LoggerConfig.req overrides).
Proof.
  intros Hl Hc.
  exists (length (Logger.heap w)),
    (registered w this l
       (Logger.construct h (LoggerConfig.spread (Logger.config l) overrides)
          (Logger.clientOpts l))),
    (Logger.construct h (LoggerConfig.spread (Logger.config l) overrides)
       (Logger.clientOpts l)),
    (Logger.set_children (Logger.children l ++ [length (Logger.heap w)]) l).
  split; [now apply with_run|].
  split; [apply lookup_ge_None_2; lia|].
  split; [apply registered_child|].
  split; [now apply child_config|].
  split; [now apply registered_parent|].
  split; [reflexivity|].
  split; [reflexivity|].
  rewrite child_config by assumption.
  destruct overrides as [oa ol os or]; cbn.
  repeat split; intros H;
    repeat match goal with
           | H : ?x = Absent |- _ => rewrite H
           end;
    try reflexivity;
    match goal with
    | H : ?x <> Absent |- _ => destruct x; [contradiction | reflexivity ..]
    end.
Qed.

(** C7 at [with({ source: 'lambda' })] on a logger made with
    [{ args: { a: 1 } }]: the child has the new [source] and the
    receiver's [args] and [logLevel]. *)
Lemma C7_with_merges_and_registers_witness :
  exists child w' c,
    Logger.with_ online_host 0
      (LoggerConfig.mk Absent Absent (Val "lambda") Absent)
      (one_logger online_host
         (LoggerConfig.mk (Val [("a", VNum 1)]) Absent Absent Absent)) =
    (Ret child, w') /\
    Logger.heap w' !! child = Some c /\
    LoggerConfig.source (Logger.config c) = Val "lambda" /\
    LoggerConfig.args (Logger.config c) = Val [("a", VNum 1)] /\
    LoggerConfig.logLevel (Logger.config c) = Val LogLevel.debug.
Proof.
  destruct (C7_with_merges_and_registers online_host 0
              (Logger.construct online_host
                 (LoggerConfig.mk (Val [("a", VNum 1)]) Absent Absent Absent)
                 None)
              (one_logger online_host
                 (LoggerConfig.mk (Val [("a", VNum 1)]) Absent Absent Absent))
              (LoggerConfig.mk Absent Absent (Val "lambda") Absent)
              eq_refl
              (construct_constructed online_host _ None))
    as (child & w' & c & l' & Hrun & _ & Hc & _ & _ & _ & _
        & Hargs & _ & Hlev & _ & _ & Hsrc & _).
  exists child, w', c.
  split; [exact Hrun|]. split; [exact Hc|].
  split; [apply Hsrc; discriminate|].
  split; [apply Hargs; reflexivity | apply Hlev; reflexivity].
Defined.

(** One [withArgs] call: the child's [args] are the receiver's with the
    new entries written over them, and every other key of the
    configuration is the receiver's. *)
Lemma withArgs_step (h : Host) (this : loc) (l : Logger.t) (w : Logger.world)
    (args : value) :
  Logger.heap w !! this = Some l ->
  constructed h l ->
  exists w' c,
    Logger.withArgs h this args w = (Ret (length (Logger.heap w)), w') /\
    Logger.heap w' !! length (Logger.heap w) = Some c /\
    constructed h c /\
    LoggerConfig.args (Logger.config c) =
      Val (spread
             (match LoggerConfig.args (Logger.config l) with
              | Val a => a
              | _ => []
              end) (own_enumerable args)) /\
    LoggerConfig.logLevel (Logger.config c) =
      LoggerConfig.logLevel (Logger.config l) /\
    LoggerConfig.source (Logger.config c) =
      LoggerConfig.source (Logger.config l) /\
    LoggerConfig.req (Logger.config c) = LoggerConfig.req (Logger.config l).
Proof.
  intros Hl Hc. do 2 eexists.
  split; [exact (withArgs_run h w this l args Hl)|].
  split; [apply registered_child|].
  split; [apply construct_constructed|].
  rewrite child_config by assumption.
  repeat split; reflexivity.
Qed.

(** C8: every [withArgs] call merges the [args] map only, the rest of the
    configuration being the receiver's; and [withArgs({a: 1})] followed by
    [withArgs({b: 2})] gives a logger whose [args] hold both [a] and [b],
    with [logLevel], [source] and [req] those of the first receiver. *)
Theorem C8_withArgs_chain (h : Host) (this : loc) (l : Logger.t)
    (w : Logger.world) :
  Logger.heap w !! this = Some l ->
  constructed h l ->
  (forall args, exists child w' c,
      Logger.withArgs h this args w = (Ret child, w') /\
      Logger.heap w' !! child = Some c /\
      LoggerConfig.args (Logger.config c) =
        Val (spread
               (match LoggerConfig.args (Logger.config l) with
                | Val a => a
                | _ => []
                end) (own_enumerable args)) /\
      LoggerConfig.logLevel (Logger.config c) =
        LoggerConfig.logLevel (Logger.config l) /\
      LoggerConfig.source (Logger.config c) =
        LoggerConfig.source (Logger.config l) /\
      LoggerConfig.req (Logger.config c) =
        LoggerConfig.req (Logger.config l)) /\
  exists c2 w2 l2 fields,
    (c1 ← Logger.withArgs h this (VObj [("a", VNum 1)]);
     Logger.withArgs h c1 (VObj [("b", VNum 2)])) w = (Ret c2, w2) /\
    Logger.heap w2 !! c2 = Some l2 /\
    LoggerConfig.args (Logger.config l2) = Val fields /\
    obj_get "a" fields = Some (VNum 1) /\
    obj_get "b" fields = Some (VNum 2) /\
    LoggerConfig.logLevel (Logger.config l2) =
      LoggerConfig.logLevel (Logger.config l) /\
    LoggerConfig.source (Logger.config l2) =
      LoggerConfig.source (Logger.config l) /\
    LoggerConfig.req (Logger.config l2) = LoggerConfig.req (Logger.config l).
Proof.
  intros Hl Hc. split.
  - intros args.
    destruct (withArgs_step h this l w args Hl Hc)
      as (w' & c & Hrun & Hchild & _ & Hargs & Hlev & Hsrc & Hreq).
    exists (length (Logger.heap w)), w', c. repeat split; assumption.
  - destruct (withArgs_step h this l w (VObj [("a", VNum 1)]) Hl Hc)
      as (w1 & c1 & Hrun1 & Hchild1 & Hc1 & Hargs1 & Hlev1 & Hsrc1 & Hreq1).
    destruct (withArgs_step h (length (Logger.heap w)) c1 w1
                (VObj [("b", VNum 2)]) Hchild1 Hc1)
      as (w2 & c2 & Hrun2 & Hchild2 & _ & Hargs2 & Hlev2 & Hsrc2 & Hreq2).
    exists (length (Logger.heap w1)), w2, c2. eexists.
    split.
    { cbv [mbind Logger.M_bind]. now rewrite Hrun1, Hrun2. }
    split; [exact Hchild2|].
    split; [exact Hargs2|].
    rewrite Hargs1. simpl own_enumerable.
    split.
    { rewrite obj_get_spread_base by reflexivity.
      apply (obj_get_spread_last "a" _ [] []). reflexivity. }
    split.
    { apply (obj_get_spread_last "b" _ [] []). reflexivity. }
    repeat split; congruence.
Qed.

(** C8 on a fresh logger. *)
Lemma C8_withArgs_chain_witness :
  exists c2 w2 l2 fields,
    (c1 ← Logger.withArgs online_host 0 (VObj [("a", VNum 1)]);
     Logger.withArgs online_host c1 (VObj [("b", VNum 2)]))
      (one_logger online_host LoggerConfig.empty) = (Ret c2, w2) /\
    Logger.heap w2 !! c2 = Some l2 /\
    LoggerConfig.args (Logger.config l2) = Val fields /\
    obj_get "a" fields = Some (VNum 1) /\
    obj_get "b" fields = Some (VNum 2).
Proof.
  destruct (C8_withArgs_chain online_host 0
              (Logger.construct online_host LoggerConfig.empty None)
              (one_logger online_host LoggerConfig.empty)
              eq_refl
              (construct_constructed online_host LoggerConfig.empty None))
    as (_ & c2 & w2 & l2 & fields & Hrun & Hl2 & Hargs & Ha & Hb & _).
  exists c2, w2, l2, fields. repeat split; assumption.
Defined.

(** C10: [withRequest(req)] returns a fresh logger whose [req] is the
    receiver's request context with the entries of [req] written over it
    and whose other configuration keys are the receiver's. The store only
    grows by that logger: the receiver and its children list are as they
    were, and in a store whose child references point into it no logger
    lists the new one. From the same state [with] and [withArgs] append
    the logger they return to the receiver's children. *)
Theorem C10_withRequest_not_registered (h : Host) (this : loc)
    (l : Logger.t) (w : Logger.world) (req : value) :
  Logger.heap w !! this = Some l ->
  constructed h l ->
  exists child w' c,
    Logger.withRequest h this req w = (Ret child, w') /\
    Logger.heap w !! child = None /\
    Logger.heap w' = Logger.heap w ++ [c] /\
    Logger.heap w' !! child = Some c /\
    Logger.heap w' !! this = Some l /\
    Logger.children c = [] /\
    LoggerConfig.req (Logger.config c) =
      Val (VObj (spread
                   (match LoggerConfig.req (Logger.config l) with
                    | Val r => own_enumerable r
                    | _ => []
                    end) (own_enumerable req))) /\
    LoggerConfig.args (Logger.config c) =
      LoggerConfig.args (Logger.config l) /\
    LoggerConfig.logLevel (Logger.config c) =
      LoggerConfig.logLevel (Logger.config l) /\
    LoggerConfig.source (Logger.config c) =
      LoggerConfig.source (Logger.config l) /\
    (children_in_store w ->
     forall r l0, Logger.heap w' !! r = Some l0 ->
                  ~ In child (Logger.children l0)) /\
    (forall overrides, exists w1 l1,
        Logger.with_ h this overrides w = (Ret child, w1) /\
        Logger.heap w1 !! this = Some l1 /\
        Logger.children l1 = Logger.children l ++ [child]) /\
    (forall args, exists w1 l1,
        Logger.withArgs h this args w = (Ret child, w1) /\
        Logger.heap w1 !! this = Some l1 /\
        Logger.children l1 = Logger.children l ++ [child]).
Proof.
  intros Hl Hc. do 3 eexists.
  split; [exact (withRequest_run h w this l req Hl)|].
  split; [apply lookup_ge_None_2; lia|].
  split; [reflexivity|].
  split; [now apply list_lookup_middle|].
  split; [now apply lookup_app_l_Some|].
  split; [reflexivity|].
  rewrite child_config by assumption.
  do 4 (split; [reflexivity|]).
  split; [|split].
  - intros Hstore r l0 Hr Hin. cbn [Logger.heap] in Hr.
    destruct (decide (r < length (Logger.heap w))) as [Hlt|Hge].
    + rewrite lookup_app_l in Hr by assumption.
      specialize (Hstore r l0 Hr _ Hin). lia.
    + rewrite lookup_app_r in Hr by lia.
      destruct (r - length (Logger.heap w)) as [|n]; simpl in Hr.
      * injection Hr as <-. exact Hin.
      * discriminate.
  - intros overrides. do 2 eexists.
    split; [exact (with_run h w this l overrides Hl)|].
    split; [now apply registered_parent|reflexivity].
  - intros args. do 2 eexists.
    split; [exact (withArgs_run h w this l args Hl)|].
    split; [now apply registered_parent|reflexivity].
Qed.

(** C10 at [withRequest({ path: '/api' })] on a fresh logger. *)
Lemma C10_withRequest_not_registered_witness :
  exists child w' c,
    Logger.withRequest online_host 0 (VObj [("path", VStr "/api")])
      (one_logger online_host LoggerConfig.empty) = (Ret child, w') /\
    Logger.heap w' !! child = Some c /\
    Logger.heap w' !! 0 =
      Some (Logger.construct online_host LoggerConfig.empty None).
Proof.
  destruct (C10_withRequest_not_registered online_host 0
              (Logger.construct online_host LoggerConfig.empty None)
              (one_logger online_host LoggerConfig.empty)
              (VObj [("path", VStr "/api")])
              eq_refl
              (construct_constructed online_host LoggerConfig.empty None))
    as (child & w' & c & Hrun & _ & _ & Hchild & Hthis & _).
  exists child, w', c. repeat split; assumption.
Defined.

(** ** Induction on values *)

Section ValueInd.
Context (P : value -> Prop).
Context (HUndefined : P VUndefined) (HNull : P VNull)
        (HBool : forall b, P (VBool b)) (HNum : forall n, P (VNum n))
        (HStr : forall s, P (VStr s)).
Context (HFun : forall a t r, P r -> P (VFun a t r)).
Context (HArr : forall xs, Forall P xs -> P (VArr xs)).
Context (HObj : forall ps, Forall (fun kv => P (snd kv)) ps -> P (VObj ps)).
Context (HError : forall n m st ps,
            Forall (fun kv => P (snd kv)) ps -> P (VError n m st ps)).

(** Induction through the lists a value nests in. *)
Fixpoint value_nested_ind (v : value) : P v :=
  match v with
  | VUndefined => HUndefined
  | VNull => HNull
  | VBool b => HBool b
  | VNum n => HNum n
  | VStr s => HStr s
  | VFun a t r => HFun a t r (value_nested_ind r)
  | VArr xs =>
      HArr xs
        ((fix elems (xs : list value) : Forall P xs :=
            match xs with
            | [] => List.Forall_nil _
            | x :: xs' =>
                List.Forall_cons _ x xs' (value_nested_ind x) (elems xs')
            end) xs)
  | VObj ps =>
      HObj ps
        ((fix props (ps : list (string * value))
            : Forall (fun kv => P (snd kv)) ps :=
            match ps with
            | [] => List.Forall_nil _
            | (k, x) :: ps' =>
                List.Forall_cons (fun kv => P (snd kv)) (k, x) ps'
                  (value_nested_ind x) (props ps')
            end) ps)
  | VError n m st ps =>
      HError n m st ps
        ((fix props (ps : list (string * value))
            : Forall (fun kv => P (snd kv)) ps :=
            match ps with
            | [] => List.Forall_nil _
            | (k, x) :: ps' =>
                List.Forall_cons (fun kv => P (snd kv)) (k, x) ps'
                  (value_nested_ind x) (props ps')
            end) ps)
  end.
End ValueInd.

(** ** The replacer and the trip through JSON *)

Lemma forallb_obj_set (f : value -> bool) (k : string) (v : value) (o : obj) :
  f v = true ->
  forallb (fun kv => f (snd kv)) o = true ->
  forallb (fun kv => f (snd kv)) (obj_set k v o) = true.
Proof.
  intros Hv. induction o as [|[k' v'] o IH]; simpl; intros Ho.
  - now rewrite Hv.
  - apply andb_true_iff in Ho as [Hv' Ho].
    destruct (String.eqb k k'); simpl.
    + now rewrite Hv, Ho.
    + now rewrite Hv', IH.
Qed.

Lemma forallb_map_snd (f : value -> bool) (g : value -> value) (ps : obj) :
  Forall (fun kv => f (g (snd kv)) = true) ps ->
  forallb (fun kv => f (snd kv)) (map (fun kv => (fst kv, g (snd kv))) ps)
  = true.
Proof.
  induction 1 as [|kv ps Hkv _ IH]; simpl; [reflexivity|].
  now rewrite Hkv, IH.
Qed.

(** What the replacer returns holds no [Error], at any depth. *)
Lemma replacer_error_free (v : value) :
  error_free (jsonFriendlyErrorReplacer v) = true.
Proof.
  induction v as [| | | | |a t r IHr|xs IH|ps IH|n m st ps IH]
    using value_nested_ind; simpl; try reflexivity.
  - induction IH as [|x xs Hx _ IHxs]; simpl; [reflexivity|].
    now rewrite Hx, IHxs.
  - now apply forallb_map_snd.
  - apply forallb_obj_set; [now destruct st|].
    apply forallb_obj_set; [reflexivity|].
    apply forallb_obj_set; [reflexivity|].
    now apply forallb_map_snd.
Qed.

Lemma replacer_id (v : value) :
  error_free v = true -> jsonFriendlyErrorReplacer v = v.
Proof.
  induction v as [| | | | |a t r IHr|xs IH|ps IH|n m st ps IH]
    using value_nested_ind;
    simpl; try reflexivity; try discriminate; intros Hf.
  - f_equal. induction IH as [|x xs Hx _ IHxs]; simpl in *; [reflexivity|].
    apply andb_true_iff in Hf as [Hfx Hfxs].
    now rewrite IHxs, Hx.
  - f_equal. induction IH as [|[k x] ps Hx _ IHps]; simpl in *; [reflexivity|].
    apply andb_true_iff in Hf as [Hfx Hfps].
    now rewrite IHps, Hx.
Qed.

(** *** The conversion, constructor by constructor *)

Lemma json_value_obj (skip : bool) (ps : obj) :
  json_value skip (VObj ps) =
  match (if skip then None else toJSON_of ps) with
  | Some (throws, r) => if throws then Throw r else json_value true r
  | None =>
      match collect_props
              (map (fun kv => (fst kv, json_value false (snd kv))) ps) with
      | Ret qs => Ret (Some (VObj qs))
      | Throw e => Throw e
      end
  end.
Proof.
  destruct skip; [reflexivity|]. cbn [json_value].
  assert (Hfind : forall qs : obj,
    (fix find (ps : list (string * value))
       : option (outcome (option value)) :=
       match ps with
       | [] => None
       | (k, x) :: ps' =>
           if String.eqb k "toJSON" then
             match x with
             | VFun _ throws r =>
                 Some (if throws then Throw r else json_value true r)
             | _ => None
             end
           else find ps'
       end) qs =
    match toJSON_of qs with
    | Some (throws, r) => Some (if throws then Throw r else json_value true r)
    | None => None
    end).
  { induction qs as [|[k x] qs IH]; [reflexivity|]. cbn [toJSON_of].
    destruct (String.eqb k "toJSON"); [now destruct x | exact IH]. }
  rewrite Hfind. now destruct (toJSON_of ps) as [[t r]|].
Qed.


Lemma json_value_arr (skip : bool) (xs : list value) :
  json_value skip (VArr xs) =
  match collect_elems (map (json_value false) xs) with
  | Ret ys => Ret (Some (VArr ys))
  | Throw e => Throw e
  end.
Proof. now destruct skip. Qed.


Lemma toJSON_of_json (ps : obj) :
  forallb (fun kv => is_json (snd kv)) ps = true -> toJSON_of ps = None.
Proof.
  induction ps as [|[k x] ps IH]; simpl; [reflexivity|].
  intros H. apply andb_true_iff in H as [Hx Hps].
  destruct (String.eqb k "toJSON"); [now destruct x | now apply IH].
Qed.

(** *** Entries *)









(** *** What the conversion returns is JSON *)



(** JSON data comes back from the trip as it went in. *)
Lemma json_value_id (v : value) :
  is_json v = true -> forall skip, json_value skip v = Ret (Some v).
Proof.
  induction v as [| | | | |a t r IHr|xs IH|ps IH|n m st ps IH]
    using value_nested_ind;
    simpl is_json; try discriminate; intros Hj skip;
    try (now destruct skip).
  - rewrite json_value_arr.
    assert (Hc : collect_elems (map (json_value false) xs) = Ret xs).
    { induction IH as [|x xs Hx _ IHxs]; simpl in *; [reflexivity|].
      apply andb_true_iff in Hj as [Hjx Hjxs].
      now rewrite (Hx Hjx), (IHxs Hjxs). }
    now rewrite Hc.
  - rewrite json_value_obj, (toJSON_of_json ps Hj).
    assert (Hc : collect_props
                   (map (fun kv => (fst kv, json_value false (snd kv))) ps)
                 = Ret ps).
    { induction IH as [|[k x] ps Hx _ IHps]; simpl in *; [reflexivity|].
      apply andb_true_iff in Hj as [Hjx Hjps].
      now rewrite (Hx Hjx), (IHps Hjps). }
    rewrite Hc. now destruct skip.
Qed.

Lemma json_roundtrip_id (v : value) :
  is_json v = true -> json_roundtrip v = Ret v.
Proof.
  intros Hj. unfold json_roundtrip. now rewrite (json_value_id v Hj).
Qed.


Lemma is_json_error_free (v : value) :
  is_json v = true -> error_free v = true.
Proof.
  induction v as [| | | | |a t r IHr|xs IH|ps IH|n m st ps IH]
    using value_nested_ind;
    simpl; try reflexivity; try discriminate; intros Hj.
  - induction IH as [|x xs Hx _ IHxs]; simpl in *; [reflexivity|].
    apply andb_true_iff in Hj as [Hjx Hjxs].
    now rewrite IHxs, Hx.
  - induction IH as [|[k x] ps Hx _ IHps]; simpl in *; [reflexivity|].
    apply andb_true_iff in Hj as [Hjx Hjps].
    now rewrite IHps, Hx.
Qed.

(** ** Further properties: the level filter *)

(** X1: when the configuration gives no level (or [debug]) and
    [AXIOM_LOG_LEVEL] names a level, the filter is the comparison of the
    ordinals: a call below the named level changes nothing, any other
    call goes on to build its event and hands it to [ingest] (or throws
    what building it throws). *)
Theorem X1_env_threshold_is_ordinal (h : Host) (init : LoggerConfig.t)
    (opts : option obj) (cs : list loc) (l2 : LogLevel.t) (m : method)
    (this : loc) (w : Logger.world) (now message : string) (args : value) :
  AXIOM_LOG_LEVEL h = Some (LogLevel.name_of l2) ->
  match LoggerConfig.logLevel init with
  | Val l => l = LogLevel.debug
  | _ => True
  end ->
  Logger.heap w !! this =
    Some (Logger.set_children cs (Logger.construct h init opts)) ->
  invoke h m this now message args w =
  if (LogLevel.value_of (method_level m) <? LogLevel.value_of l2)%Z
  then (Ret tt, w)
  else
    match Logger.build_event h
            (Logger.set_children cs (Logger.construct h init opts))
            now (method_name m) message (Logger.default_args args) with
    | Ret ev => Logger.ingest h this ev w
    | Throw e => (Throw e, w)
    end.
Proof.
  intros Henv Hcfg Hl.
  rewrite invoke_log, (log_run h _ _ _ _ _ _ _ Hl).
  change (Logger.logLevel (Logger.set_children cs (Logger.construct h init opts)))
    with (Logger.logLevel (Logger.construct h init opts)).
  rewrite construct_logLevel_env by assumption.
  unfold Logger.LOG_LEVEL. rewrite Henv.
  replace (String.eqb (LogLevel.name_of l2) "") with false by now destruct l2.
  destruct (LogLevel.value_of (method_level m) <? LogLevel.value_of l2)%Z eqn:E.
  - apply Z.ltb_lt in E. now rewrite named_threshold_filters.
  - apply Z.ltb_ge in E. now rewrite named_threshold_passes.
Qed.

(** X1 at [AXIOM_LOG_LEVEL=warn] and a call of [info]. *)
Lemma X1_env_threshold_is_ordinal_witness :
  invoke (sample_host (Some "warn") true None (Ret Pending)) Minfo 0
    "2024-01-01T00:00:00.000Z" "x" VUndefined
    (one_logger (sample_host (Some "warn") true None (Ret Pending))
       LoggerConfig.empty) =
  (Ret tt,
   one_logger (sample_host (Some "warn") true None (Ret Pending))
     LoggerConfig.empty).
Proof.
  exact (X1_env_threshold_is_ordinal
           (sample_host (Some "warn") true None (Ret Pending))
           LoggerConfig.empty None [] LogLevel.warn Minfo 0
           (one_logger (sample_host (Some "warn") true None (Ret Pending))
              LoggerConfig.empty)
           "2024-01-01T00:00:00.000Z" "x" VUndefined eq_refl I eq_refl).
Defined.

(** X2: when the configuration gives no level (or [debug]) and
    [AXIOM_LOG_LEVEL] is unset, empty, or not a key of the enum, no level
    method is filtered: every call goes on to build its event and hands
    it to [ingest] (or throws what building it throws). *)
Theorem X2_unknown_env_level_filters_nothing (h : Host)
    (init : LoggerConfig.t) (opts : option obj) (cs : list loc) (m : method)
    (this : loc) (w : Logger.world) (now message : string) (args : value) :
  match AXIOM_LOG_LEVEL h with
  | Some s => s = "" \/ obj_get s LogLevel.object = None
  | None => True
  end ->
  match LoggerConfig.logLevel init with
  | Val l => l = LogLevel.debug
  | _ => True
  end ->
  Logger.heap w !! this =
    Some (Logger.set_children cs (Logger.construct h init opts)) ->
  invoke h m this now message args w =
  match Logger.build_event h
          (Logger.set_children cs (Logger.construct h init opts))
          now (method_name m) message (Logger.default_args args) with
  | Ret ev => Logger.ingest h this ev w
  | Throw e => (Throw e, w)
  end.
Proof.
  intros Henv Hcfg Hl.
  rewrite invoke_log, (log_run h _ _ _ _ _ _ _ Hl).
  change (Logger.logLevel (Logger.set_children cs (Logger.construct h init opts)))
    with (Logger.logLevel (Logger.construct h init opts)).
  rewrite construct_logLevel_env by assumption.
  assert (Hpass : Logger.below_threshold (method_name m) (Logger.LOG_LEVEL h)
                  = false).
  { unfold Logger.LOG_LEVEL.
    destruct (AXIOM_LOG_LEVEL h) as [s|]; [|now destruct m].
    destruct (String.eqb s "") eqn:E; [now destruct m|].
    destruct Henv as [-> | Hnone]; [discriminate|].
    unfold Logger.below_threshold, LogLevel.index at 2. rewrite Hnone.
    now destruct m. }
  now rewrite Hpass.
Qed.

(** X2 at [AXIOM_LOG_LEVEL=verbose], which is no level. *)
Lemma X2_unknown_env_level_filters_nothing_witness :
  invoke (sample_host (Some "verbose") true None (Ret Pending)) Mdebug 0
    "2024-01-01T00:00:00.000Z" "x" VUndefined
    (one_logger (sample_host (Some "verbose") true None (Ret Pending))
       LoggerConfig.empty) =
  Logger.ingest (sample_host (Some "verbose") true None (Ret Pending)) 0
    (LogEvent.mk "debug" "x" [] "2024-01-01T00:00:00.000Z" None None None
       None)
    (one_logger (sample_host (Some "verbose") true None (Ret Pending))
       LoggerConfig.empty).
Proof.
  exact (X2_unknown_env_level_filters_nothing
           (sample_host (Some "verbose") true None (Ret Pending))
           LoggerConfig.empty None [] Mdebug 0
           (one_logger (sample_host (Some "verbose") true None (Ret Pending))
              LoggerConfig.empty)
           "2024-01-01T00:00:00.000Z" "x" VUndefined
           (or_intror eq_refl) I eq_refl).
Defined.

(** X3: a level method never changes the logger store, and it adds at
    most two actions to the trace. *)
Theorem X3_level_method_frame (h : Host) (m : method) (this : loc)
    (l : Logger.t) (w : Logger.world) (now message : string) (args : value) :
  Logger.heap w !! this = Some l ->
  Logger.heap (snd (invoke h m this now message args w)) = Logger.heap w /\
  exists new,
    Logger.trace (snd (invoke h m this now message args w)) =
      Logger.trace w ++ new /\
    length new <= 2.
Proof.
  intros Hl. split; [now apply (invoke_keeps_store h m this l)|].
  rewrite invoke_log, (log_run h _ _ _ _ _ _ _ Hl).
  destruct (Logger.below_threshold _ _).
  { exists []. simpl. rewrite app_nil_r. split; [reflexivity | lia]. }
  destruct (Logger.build_event _ _ _ _ _ _) as [ev|e] eqn:Hev.
  2: { exists []. simpl. rewrite app_nil_r. split; [reflexivity | lia]. }
  destruct (isEnvVarsSet h) eqn:Hset.
  - rewrite (ingest_client h _ _ _ _ Hset Hl). simpl.
    eexists; split; [reflexivity|].
    destruct (client_ingest h _ _ _ _); simpl; lia.
  - rewrite (ingest_console h _ _ _ Hset).
    destruct (colors_of_method m) as [c Hc].
    destruct (prettyPrint_once h ev w c) as [arguments Hp].
    { now rewrite (build_event_level h _ _ _ _ _ _ Hev). }
    rewrite Hp. simpl. eexists; split; [reflexivity | simpl; lia].
Qed.

(** X3 at [warn("x")] with the network down. *)
Lemma X3_level_method_frame_witness :
  Logger.heap
    (snd (invoke offline_host Mwarn 0 "2024-01-01T00:00:00.000Z" "x"
            VUndefined (one_logger offline_host LoggerConfig.empty))) =
  Logger.heap (one_logger offline_host LoggerConfig.empty).
Proof.
  exact (proj1 (X3_level_method_frame offline_host Mwarn 0
                  (Logger.construct offline_host LoggerConfig.empty None)
                  (one_logger offline_host LoggerConfig.empty)
                  "2024-01-01T00:00:00.000Z" "x" VUndefined eq_refl)).
Defined.

(** ** Further properties: the sinks and the formatter *)

Lemma colors_of_cases (level : string) (c : string * string) :
  Logger.colors_of level Logger.levelColors = Some c ->
  c = ("32", "lightgreen") \/ c = ("36", "lightblue") \/
  c = ("33", "yellow") \/ c = ("31", "red").
Proof.
  unfold Logger.levelColors; simpl.
  repeat match goal with
         | |- context [String.eqb level ?k] => destruct (String.eqb level k)
         end; intros H; inversion H; auto.
Qed.



(** X5: in its rich mode, for a level of the colour table, the formatter
    makes one console write whose first argument is a format string with
    exactly one directive for each argument that follows it. *)
Theorem X5_rich_mode_directives_match (h : Host) (ev : LogEvent.t)
    (w : Logger.world) (c : string * string) :
  isNoPrettyPrint h = false ->
  Logger.colors_of (LogEvent.level ev) Logger.levelColors = Some c ->
  exists fmt arguments,
    Logger.prettyPrint h ev w =
      (Ret tt,
       Logger.mkWorld (Logger.heap w)
         (Logger.trace w ++ [ConsoleLog (VStr fmt :: arguments)])) /\
    count_directives fmt = length arguments.
Proof.
  intros Hrich Hc. unfold Logger.prettyPrint.
  rewrite Hrich, (level_colors_own _ _ Hc).
  destruct (colors_of_cases _ _ Hc) as [-> | [-> | [-> | ->]]];
    run_M;
    destruct (isBrowser h), (0 <? length _)%nat,
      (LogEvent.request ev) as [r|];
    try destruct (truthy r);
    do 2 eexists; (split; [reflexivity|]); reflexivity.
Qed.

(** X5 at an [info] event with fields, on a server. *)
Lemma X5_rich_mode_directives_match_witness :
  exists fmt arguments,
    Logger.prettyPrint dev_host
      (LogEvent.mk "info" "x" [("a", VNum 1)] "2024-01-01T00:00:00.000Z"
         None None None None)
      (one_logger dev_host LoggerConfig.empty) =
    (Ret tt,
     Logger.mkWorld (Logger.heap (one_logger dev_host LoggerConfig.empty))
       [ConsoleLog (VStr fmt :: arguments)]) /\
    count_directives fmt = length arguments.
Proof.
  exact (X5_rich_mode_directives_match dev_host
           (LogEvent.mk "info" "x" [("a", VNum 1)] "2024-01-01T00:00:00.000Z"
              None None None None)
           (one_logger dev_host LoggerConfig.empty)
           ("32", "lightgreen") eq_refl eq_refl).
Defined.

Lemma dataset_or_vercel_nonempty (h : Host) :
  Logger.dataset_or_vercel h <> "".
Proof.
  unfold Logger.dataset_or_vercel.
  destruct (configurator_dataset h) as [d|]; [|discriminate].
  destruct (String.eqb d "") eqn:E; [discriminate|].
  now apply String.eqb_neq.
Qed.

(** X6: with the ingestion environment set, a level-method call that
    passes the filter and builds its event calls the client exactly once,
    with that event, under the dataset the configurator names, or
    [vercel] when it names none or the empty one; the only console write
    is the warning that carries what the client threw, if it threw. *)
Theorem X6_env_set_one_client_call (h : Host) (m : method) (this : loc)
    (l : Logger.t) (w : Logger.world) (now message : string) (args : value)
    (ev : LogEvent.t) :
  isEnvVarsSet h = true ->
  Logger.heap w !! this = Some l ->
  Logger.below_threshold (method_name m) (Logger.logLevel l) = false ->
  Logger.build_event h l now (method_name m) message
    (Logger.default_args args) = Ret ev ->
  exists dataset,
    invoke h m this now message args w =
      (Ret tt,
       Logger.mkWorld (Logger.heap w)
         (Logger.trace w ++
          ClientIngest (Logger.client l) dataset ev ::
          match client_ingest h (Logger.trace w) (Logger.client l)
                  dataset ev with
          | Some e => [ConsoleWarn e]
          | None => []
          end))
    /\ dataset <> ""
    /\ (forall d, configurator_dataset h = Some d -> d <> "" -> dataset = d)
    /\ (configurator_dataset h = None -> dataset = "vercel")
    /\ (configurator_dataset h = Some "" -> dataset = "vercel").
Proof.
  intros Hset Hl Hpass Hev.
  rewrite invoke_log, (log_run h _ _ _ _ _ _ _ Hl), Hpass, Hev,
    (ingest_client h _ _ _ _ Hset Hl).
  exists (Logger.dataset_or_vercel h). split; [reflexivity|].
  split; [apply dataset_or_vercel_nonempty|].
  unfold Logger.dataset_or_vercel.
  split; [|split].
  - intros d -> Hd. apply String.eqb_neq in Hd. now rewrite Hd.
  - now intros ->.
  - now intros ->.
Qed.

(** X6 at [info("x")] with a working client. *)
Lemma X6_env_set_one_client_call_witness :
  exists dataset ev,
    invoke online_host Minfo 0 "2024-01-01T00:00:00.000Z" "x" VUndefined
      (one_logger online_host LoggerConfig.empty) =
    (Ret tt,
     Logger.mkWorld (Logger.heap (one_logger online_host LoggerConfig.empty))
       [ClientIngest
          (Logger.client (Logger.construct online_host LoggerConfig.empty None))
          dataset ev])
    /\ dataset = "vercel".
Proof.
  destruct (X6_env_set_one_client_call online_host Minfo 0
              (Logger.construct online_host LoggerConfig.empty None)
              (one_logger online_host LoggerConfig.empty)
              "2024-01-01T00:00:00.000Z" "x" VUndefined _
              eq_refl eq_refl eq_refl eq_refl)
    as (d & Hrun & _ & _ & Hd & _).
  rewrite (Hd eq_refl) in *.
  do 2 eexists. split; [exact Hrun | reflexivity].
Defined.

(** ** Further properties: call-site arguments *)

Lemma obj_get_map_values (g : value -> value) (k : string) (ps : obj) :
  obj_get k (map (fun kv => (fst kv, g (snd kv))) ps) =
  option_map g (obj_get k ps).
Proof.
  induction ps as [|[k' v] ps IH]; simpl; [reflexivity|].
  now destruct (String.eqb k k').
Qed.

Lemma obj_get_absent (k : string) (o : obj) :
  ~ In k (Object_keys o) -> obj_get k o = None.
Proof.
  induction o as [|[k' v] o IH]; simpl; [reflexivity|]. intros Hn.
  destruct (String.eqb k k') eqn:E.
  - apply String.eqb_eq in E. subst. tauto.
  - apply IH. tauto.
Qed.

(** Lookup in [{ ...base, ...ext }] when [ext] has no key twice. *)
Lemma obj_get_spread (k : string) (base ext : obj) :
  keys_unique ext ->
  obj_get k (spread base ext) =
  match obj_get k ext with
  | Some v => Some v
  | None => obj_get k base
  end.
Proof.
  unfold keys_unique, spread. revert base.
  induction ext as [|[k' v'] ext IH]; intros base Hu; simpl; [reflexivity|].
  simpl in Hu. apply NoDup_cons in Hu as [Hnin Hu].
  rewrite IH by assumption.
  destruct (String.eqb k k') eqn:E.
  - apply String.eqb_eq in E. subst k'.
    rewrite obj_get_absent by (now rewrite <- list_elem_of_In).
    apply obj_get_set_eq.
  - rewrite obj_get_set_ne by now apply String.eqb_neq.
    reflexivity.
Qed.


(** X7: [jsonFriendlyErrorReplacer], applied through a value as
    [JSON.stringify] applies it, leaves no [Error] instance at any depth,
    and applying it again changes nothing. *)
Theorem X7_replacer_removes_errors (v : value) :
  error_free (jsonFriendlyErrorReplacer v) = true /\
  jsonFriendlyErrorReplacer (jsonFriendlyErrorReplacer v) =
    jsonFriendlyErrorReplacer v.
Proof.
  split; [apply replacer_error_free|].
  apply replacer_id, replacer_error_free.
Qed.




(** X9: a call-site argument that is a non-empty mapping of JSON data is
    spread into the fields as it is, and a key it shares with the
    configured fields takes the call-site value. *)
Theorem X9_json_mapping_spread_unchanged (base ps : obj) :
  ps <> [] ->
  is_json (VObj ps) = true ->
  keys_unique ps ->
  exists f,
    Logger.build_fields base (VObj ps) = Ret f /\
    f = spread base ps /\
    forall k,
      obj_get k f =
      match obj_get k ps with
      | Some v => Some v
      | None => obj_get k base
      end.
Proof.
  intros Hne Hj Hu. exists (spread base ps).
  split; [|split; [reflexivity|]].
  - rewrite build_fields_object by (reflexivity || assumption).
    now rewrite json_roundtrip_id.
  - intros k. now apply obj_get_spread.
Qed.

(** X9 at the argument [{ user: "ada", n: 3 }] over configured fields
    that already have [n]. *)
Lemma X9_json_mapping_spread_unchanged_witness :
  exists f,
    Logger.build_fields [("n", VNum 1)]
      (VObj [("user", VStr "ada"); ("n", VNum 3)]) = Ret f /\
    obj_get "n" f = Some (VNum 3).
Proof.
  assert (Hu : keys_unique [("user", VStr "ada"); ("n", VNum 3)]).
  { unfold keys_unique. apply (bool_decide_unpack _). reflexivity. }
  destruct (X9_json_mapping_spread_unchanged [("n", VNum 1)]
              [("user", VStr "ada"); ("n", VNum 3)]
              ltac:(discriminate) eq_refl Hu) as (f & Hf & _ & Hk).
  exists f. split; [exact Hf | exact (Hk "n")].
Defined.






(** An argument without content leaves the fields as they are. *)
Lemma build_fields_lengthless (base : obj) (args : value) :
  lengthless args = true ->
  Logger.build_fields base (Logger.default_args args) = Ret base.
Proof.
  intros Hl.
  destruct args as [| |b|n|s|xs|ps|? ? ? ?|a t r]; try discriminate;
    try reflexivity.
  - unfold Logger.build_fields; simpl. now rewrite andb_false_r.
  - apply build_fields_number.
  - simpl in Hl. apply String.eqb_eq in Hl. now subst.
  - destruct xs; [reflexivity | discriminate].
  - destruct ps; [reflexivity | discriminate].
  - destruct a; [reflexivity | discriminate].
Qed.

(** X11: a call with no argument, or with an empty object or array,
    [null], a number, a boolean, an empty string or a function without
    parameters builds an event whose fields are the configured fields and
    nothing else. *)
Theorem X11_lengthless_argument_ignored (h : Host) (l : Logger.t)
    (now level message : string) (args : value) :
  lengthless args = true ->
  exists ev,
    Logger.build_event h l now level message (Logger.default_args args)
      = Ret ev /\
    LogEvent.fields ev =
      match LoggerConfig.args (Logger.config l) with Val a => a | _ => [] end.
Proof.
  intros Hl. apply build_event_of_fields.
  now apply build_fields_lengthless.
Qed.

(** X11 at [info("x", 42)]. *)
Lemma X11_lengthless_argument_ignored_witness :
  exists ev,
    Logger.build_event online_host
      (Logger.construct online_host LoggerConfig.empty None)
      "2024-01-01T00:00:00.000Z" "info" "x"
      (Logger.default_args (VNum 42)) = Ret ev /\
    LogEvent.fields ev = [].
Proof.
  exact (X11_lengthless_argument_ignored online_host
           (Logger.construct online_host LoggerConfig.empty None)
           "2024-01-01T00:00:00.000Z" "info" "x" (VNum 42) eq_refl).
Defined.

(** ** Further properties: families of loggers *)

Lemma spread_config_assoc (a b c : LoggerConfig.t) :
  LoggerConfig.spread (LoggerConfig.spread a b) c =
  LoggerConfig.spread a (LoggerConfig.spread b c).
Proof.
  destruct a as [a1 a2 a3 a4], b as [b1 b2 b3 b4], c as [c1 c2 c3 c4].
  unfold LoggerConfig.spread; simpl.
  now destruct c1, c2, c3, c4.
Qed.

Lemma obj_set_idem (k : string) (v : value) (o : obj) :
  obj_set k v (obj_set k v o) = obj_set k v o.
Proof.
  induction o as [|[k' v'] o IH]; simpl.
  - now rewrite String.eqb_refl.
  - destruct (String.eqb k k') eqn:E; simpl.
    + now rewrite String.eqb_refl.
    + now rewrite E, IH.
Qed.

(** The threshold text the constructor stores depends on the [logLevel]
    key of the configuration it leaves, and on nothing else of its
    arguments. *)
Lemma construct_logLevel_config (h : Host) (i1 i2 : LoggerConfig.t)
    (o1 o2 : option obj) :
  LoggerConfig.logLevel (Logger.config (Logger.construct h i1 o1)) =
  LoggerConfig.logLevel (Logger.config (Logger.construct h i2 o2)) ->
  Logger.logLevel (Logger.construct h i1 o1) =
  Logger.logLevel (Logger.construct h i2 o2).
Proof.
  unfold Logger.construct; cbn [Logger.config Logger.logLevel].
  now intros ->.
Qed.

(** X12: the logger [withArgs] returns reads each [args] key from the
    new entries first and from the receiver's [args] otherwise, and a
    call on it with no argument builds an event with exactly those
    fields. *)
Theorem X12_withArgs_fields_reach_events (h : Host) (this : loc)
    (l : Logger.t) (w : Logger.world) (ps : obj) :
  Logger.heap w !! this = Some l ->
  constructed h l ->
  keys_unique ps ->
  exists child w' c,
    Logger.withArgs h this (VObj ps) w = (Ret child, w') /\
    Logger.heap w' !! child = Some c /\
    forall now level message,
    exists ev,
      Logger.build_event h c now level message
        (Logger.default_args VUndefined) = Ret ev /\
      forall k,
        obj_get k (LogEvent.fields ev) =
        match obj_get k ps with
        | Some v => Some v
        | None =>
            obj_get k
              (match LoggerConfig.args (Logger.config l) with
               | Val a => a
               | _ => []
               end)
        end.
Proof.
  intros Hl Hc Hu. do 3 eexists.
  split; [exact (withArgs_run h w this l (VObj ps) Hl)|].
  split; [apply registered_child|].
  intros now level message.
  match goal with
  | |- context [Logger.build_event h ?c _ _ _ _] =>
      destruct (build_event_of_fields h c now level message
                  (Logger.default_args VUndefined) _
                  (build_fields_lengthless _ VUndefined eq_refl))
        as (ev & Hev & Hf)
  end.
  exists ev. split; [exact Hev|].
  intros k. rewrite Hf. simpl.
  now apply obj_get_spread.
Qed.

(** X12 at [withArgs({ user: "ada" })] on a fresh logger. *)
Lemma X12_withArgs_fields_reach_events_witness :
  exists child w' c,
    Logger.withArgs online_host 0 (VObj [("user", VStr "ada")])
      (one_logger online_host LoggerConfig.empty) = (Ret child, w') /\
    Logger.heap w' !! child = Some c /\
    exists ev,
      Logger.build_event online_host c "2024-01-01T00:00:00.000Z"
        "info" "x" (Logger.default_args VUndefined) = Ret ev /\
      obj_get "user" (LogEvent.fields ev) = Some (VStr "ada").
Proof.
  assert (Hu : keys_unique [("user", VStr "ada")]).
  { unfold keys_unique. apply (bool_decide_unpack _). reflexivity. }
  destruct (X12_withArgs_fields_reach_events online_host 0
              (Logger.construct online_host LoggerConfig.empty None)
              (one_logger online_host LoggerConfig.empty)
              [("user", VStr "ada")] eq_refl
              (construct_constructed online_host LoggerConfig.empty None) Hu)
    as (child & w' & c & Hrun & Hc & Hf).
  destruct (Hf "2024-01-01T00:00:00.000Z" "info" "x") as (ev & Hev & Hk).
  exists child, w', c. split; [exact Hrun|]. split; [exact Hc|].
  exists ev. split; [exact Hev | exact (Hk "user")].
Defined.

(** X13: two [with] calls in a row compose: the logger
    [l.with(a).with(b)] has the configuration [l.with({ ...a, ...b })]
    would have, the receiver's with [a] and then [b] written over it. *)
Theorem X13_with_composes (h : Host) (this : loc) (l : Logger.t)
    (w : Logger.world) (a b : LoggerConfig.t) :
  Logger.heap w !! this = Some l ->
  constructed h l ->
  exists c1 w1 c2 w2 g,
    Logger.with_ h this a w = (Ret c1, w1) /\
    Logger.with_ h c1 b w1 = (Ret c2, w2) /\
    c1 <> c2 /\
    Logger.heap w2 !! c2 = Some g /\
    Logger.config g =
      LoggerConfig.spread (Logger.config l) (LoggerConfig.spread a b).
Proof.
  intros Hl Hc.
  set (k1 := Logger.construct h (LoggerConfig.spread (Logger.config l) a)
               (Logger.clientOpts l)).
  assert (H1 : Logger.heap (registered w this l k1) !! length (Logger.heap w)
               = Some k1) by apply registered_child.
  exists (length (Logger.heap w)), (registered w this l k1),
    (length (Logger.heap (registered w this l k1))).
  do 2 eexists.
  split; [exact (with_run h w this l a Hl)|].
  split; [exact (with_run h _ _ k1 b H1)|].
  split.
  { unfold registered; cbn [Logger.heap].
    rewrite length_app, length_insert; simpl. lia. }
  split; [apply registered_child|].
  rewrite child_config by apply construct_constructed.
  unfold k1. rewrite child_config by assumption.
  apply spread_config_assoc.
Qed.

(** X13 at [with({ source: 'lambda' })] then [with({ source: 'edge' })]. *)
Lemma X13_with_composes_witness :
  exists c1 w1 c2 w2 g,
    Logger.with_ online_host 0
      (LoggerConfig.mk Absent Absent (Val "lambda") Absent)
      (one_logger online_host LoggerConfig.empty) = (Ret c1, w1) /\
    Logger.with_ online_host c1
      (LoggerConfig.mk Absent Absent (Val "edge") Absent) w1 = (Ret c2, w2) /\
    Logger.heap w2 !! c2 = Some g /\
    LoggerConfig.source (Logger.config g) = Val "edge".
Proof.
  destruct (X13_with_composes online_host 0
              (Logger.construct online_host LoggerConfig.empty None)
              (one_logger online_host LoggerConfig.empty)
              (LoggerConfig.mk Absent Absent (Val "lambda") Absent)
              (LoggerConfig.mk Absent Absent (Val "edge") Absent)
              eq_refl
              (construct_constructed online_host LoggerConfig.empty None))
    as (c1 & w1 & c2 & w2 & g & H1 & H2 & _ & Hg & Hcfg).
  exists c1, w1, c2, w2, g. repeat split; try assumption.
  now rewrite Hcfg.
Defined.

(** A child built over the receiver's configuration without a [logLevel]
    of its own stores the receiver's threshold text. *)
Lemma child_logLevel (h : Host) (l : Logger.t) (over : LoggerConfig.t)
    (opts : option obj) :
  constructed h l ->
  LoggerConfig.logLevel over = Absent ->
  Logger.logLevel
    (Logger.construct h (LoggerConfig.spread (Logger.config l) over) opts) =
  Logger.logLevel l.
Proof.
  intros Hc Hover.
  pose proof (child_config h l over opts Hc) as Hcfg.
  destruct Hc as (init & o & Hl).
  rewrite Hl at 2. cbn [Logger.logLevel Logger.set_children].
  apply construct_logLevel_config. rewrite Hcfg.
  rewrite Hl. simpl. now rewrite Hover.
Qed.

(** X14: the loggers [withArgs] and [withRequest] return, and the one
    [with] returns when the overrides have no [logLevel], filter as the
    receiver does: they store the receiver's threshold. *)
Theorem X14_child_keeps_threshold (h : Host) (this : loc) (l : Logger.t)
    (w : Logger.world) :
  Logger.heap w !! this = Some l ->
  constructed h l ->
  (forall args, exists child w' c,
      Logger.withArgs h this args w = (Ret child, w') /\
      Logger.heap w' !! child = Some c /\
      Logger.logLevel c = Logger.logLevel l) /\
  (forall req, exists child w' c,
      Logger.withRequest h this req w = (Ret child, w') /\
      Logger.heap w' !! child = Some c /\
      Logger.logLevel c = Logger.logLevel l) /\
  (forall overrides,
      LoggerConfig.logLevel overrides = Absent ->
      exists child w' c,
        Logger.with_ h this overrides w = (Ret child, w') /\
        Logger.heap w' !! child = Some c /\
        Logger.logLevel c = Logger.logLevel l).
Proof.
  intros Hl Hc. split; [|split].
  - intros args. do 3 eexists.
    split; [exact (withArgs_run h w this l args Hl)|].
    split; [apply registered_child|].
    now apply child_logLevel.
  - intros req. do 3 eexists.
    split; [exact (withRequest_run h w this l req Hl)|].
    split; [now apply list_lookup_middle|].
    now apply child_logLevel.
  - intros overrides Hover. do 3 eexists.
    split; [exact (with_run h w this l overrides Hl)|].
    split; [apply registered_child|].
    now apply child_logLevel.
Qed.

(** X14 on a logger under [AXIOM_LOG_LEVEL=warn]. *)
Lemma X14_child_keeps_threshold_witness :
  exists child w' c,
    Logger.withArgs (sample_host (Some "warn") true None (Ret Pending)) 0
      (VObj [("a", VNum 1)])
      (one_logger (sample_host (Some "warn") true None (Ret Pending))
         LoggerConfig.empty) = (Ret child, w') /\
    Logger.heap w' !! child = Some c /\
    Logger.logLevel c = "warn".
Proof.
  destruct (proj1 (X14_child_keeps_threshold
                     (sample_host (Some "warn") true None (Ret Pending)) 0
                     (Logger.construct
                        (sample_host (Some "warn") true None (Ret Pending))
                        LoggerConfig.empty None)
                     (one_logger
                        (sample_host (Some "warn") true None (Ret Pending))
                        LoggerConfig.empty)
                     eq_refl
                     (construct_constructed _ LoggerConfig.empty None))
                  (VObj [("a", VNum 1)]))
    as (child & w' & c & Hrun & Hc & Hlev).
  exists child, w', c. repeat split; assumption.
Defined.

(** The client of a child is built with the options the receiver's
    client was built with. *)
Lemma child_client (h : Host) (l : Logger.t) (cfg : LoggerConfig.t) :
  constructed h l ->
  Logger.client (Logger.construct h cfg (Logger.clientOpts l)) =
  Logger.client l.
Proof.
  intros (init & opts & ->).
  unfold Logger.construct; cbn [Logger.client Logger.clientOpts
                                  Logger.set_children].
  destruct opts as [o|]; simpl; [apply obj_set_idem | reflexivity].
Qed.

(** X15: every logger's client is built with options that carry the
    [sdk] tag of this package, whatever [sdk] the caller's options held;
    and the loggers [with], [withArgs] and [withRequest] return get a
    client built with the very options of the receiver's client. *)
Theorem X15_client_options_tagged_and_inherited (h : Host) (this : loc)
    (l : Logger.t) (w : Logger.world) :
  Logger.heap w !! this = Some l ->
  constructed h l ->
  obj_get "sdk" (Logger.client l) =
    Some (VStr ("next-axiom/v" ++ Version h)%string) /\
  (forall overrides, exists child w' c,
      Logger.with_ h this overrides w = (Ret child, w') /\
      Logger.heap w' !! child = Some c /\
      Logger.client c = Logger.client l) /\
  (forall args, exists child w' c,
      Logger.withArgs h this args w = (Ret child, w') /\
      Logger.heap w' !! child = Some c /\
      Logger.client c = Logger.client l) /\
  (forall req, exists child w' c,
      Logger.withRequest h this req w = (Ret child, w') /\
      Logger.heap w' !! child = Some c /\
      Logger.client c = Logger.client l).
Proof.
  intros Hl Hc. split; [|split; [|split]].
  - destruct Hc as (init & opts & ->).
    cbn [Logger.client Logger.set_children Logger.construct].
    apply obj_get_set_eq.
  - intros overrides. do 3 eexists.
    split; [exact (with_run h w this l overrides Hl)|].
    split; [apply registered_child | now apply child_client].
  - intros args. do 3 eexists.
    split; [exact (withArgs_run h w this l args Hl)|].
    split; [apply registered_child | now apply child_client].
  - intros req. do 3 eexists.
    split; [exact (withRequest_run h w this l req Hl)|].
    split; [now apply list_lookup_middle | now apply child_client].
Qed.

(** X15 on a logger whose caller passed options with an [sdk] of its
    own. *)
Lemma X15_client_options_tagged_and_inherited_witness :
  obj_get "sdk"
    (Logger.client
       (Logger.construct online_host LoggerConfig.empty
          (Some [("token", VStr "t"); ("sdk", VStr "mine")]))) =
  Some (VStr "next-axiom/v0.1.0").
Proof.
  exact (proj1 (X15_client_options_tagged_and_inherited online_host 0
                  (Logger.construct online_host LoggerConfig.empty
                     (Some [("token", VStr "t"); ("sdk", VStr "mine")]))
                  (Logger.mkWorld
                     [Logger.construct online_host LoggerConfig.empty
                        (Some [("token", VStr "t"); ("sdk", VStr "mine")])]
                     [])
                  eq_refl
                  (construct_constructed online_host LoggerConfig.empty _))).
Defined.

(** X16: [with], [withArgs] and [withRequest] keep the store well
    formed: afterwards every logger is still one a constructor call left,
    and every entry of every children list refers to a logger in the
    store. *)
Theorem X16_builders_keep_store (h : Host) (this : loc) (l : Logger.t)
    (w : Logger.world) :
  store_ok h w ->
  Logger.heap w !! this = Some l ->
  (forall overrides, store_ok h (snd (Logger.with_ h this overrides w))) /\
  (forall args, store_ok h (snd (Logger.withArgs h this args w))) /\
  (forall req, store_ok h (snd (Logger.withRequest h this req w))).
Proof.
  intros Hok Hl. split; [|split]; intros x.
  - now apply (with_ok h w this l).
  - now apply (withArgs_ok h w this l).
  - now apply (withRequest_ok h w this l).
Qed.

(** X16 on a store with one fresh logger. *)
Lemma X16_builders_keep_store_witness :
  store_ok online_host
    (snd (Logger.withArgs online_host 0 (VObj [("a", VNum 1)])
            (one_logger online_host LoggerConfig.empty))).
Proof.
  exact (proj1 (proj2 (X16_builders_keep_store online_host 0
                         (Logger.construct online_host LoggerConfig.empty None)
                         (one_logger online_host LoggerConfig.empty)
                         (one_logger_ok online_host LoggerConfig.empty)
                         eq_refl))
           (VObj [("a", VNum 1)])).
Defined.

Lemma attach_request_request (cfg : LoggerConfig.t) (ev : LogEvent.t)
    (r : value) :
  LoggerConfig.req cfg = Val r ->
  nullish r = false ->
  LogEvent.request (Logger.attach_request cfg ev) = Some r.
Proof.
  intros Hr Hn. unfold Logger.attach_request. rewrite Hr, Hn.
  cbn [LogEvent.platform LogEvent.vercel LogEvent.set_request].
  destruct (LogEvent.platform ev); [reflexivity|].
  destruct (LogEvent.vercel ev); reflexivity.
Qed.

(** X17: every event built by the logger [withRequest(req)] returns
    carries, as its [request], the receiver's request context with the
    entries of [req] written over it; an event of a logger without a
    request context carries none. A call with no argument always builds
    its event. *)
Theorem X17_withRequest_events_carry_request (h : Host) (this : loc)
    (l : Logger.t) (w : Logger.world) (req : value) :
  Logger.heap w !! this = Some l ->
  constructed h l ->
  (exists child w' c,
      Logger.withRequest h this req w = (Ret child, w') /\
      Logger.heap w' !! child = Some c /\
      (forall now level message,
          exists ev,
            Logger.build_event h c now level message (VObj []) = Ret ev) /\
      forall now level message args ev,
        Logger.build_event h c now level message args = Ret ev ->
        LogEvent.request ev =
        Some (VObj (spread
                      (match LoggerConfig.req (Logger.config l) with
                       | Val r => own_enumerable r
                       | _ => []
                       end) (own_enumerable req)))) /\
  (LoggerConfig.req (Logger.config l) = Absent ->
   (forall now level message,
       exists ev,
         Logger.build_event h l now level message (VObj []) = Ret ev) /\
   forall now level message args ev,
     Logger.build_event h l now level message args = Ret ev ->
     LogEvent.request ev = None).
Proof.
  intros Hl Hc. split.
  - do 3 eexists.
    split; [exact (withRequest_run h w this l req Hl)|].
    split; [now apply list_lookup_middle|].
    split.
    { intros now level message.
      match goal with
      | |- context [Logger.build_event h ?c _ _ _ _] =>
          destruct (build_event_no_argument h c now level message)
            as (ev & Hev & _)
      end.
      now exists ev. }
    intros now level message args ev. unfold Logger.build_event.
    destruct (Logger.build_fields _ args) as [f|e]; [|discriminate].
    intros [= <-].
    apply attach_request_request with (r := VObj (spread
      (match LoggerConfig.req (Logger.config l) with
       | Val r => own_enumerable r
       | _ => []
       end) (own_enumerable req))); reflexivity.
  - intros Hreq. split.
    { intros now level message.
      destruct (build_event_no_argument h l now level message)
        as (ev & Hev & _).
      now exists ev. }
    intros now level message args ev. unfold Logger.build_event.
    destruct (Logger.build_fields _ args) as [f|e]; [|discriminate].
    intros [= <-].
    unfold Logger.attach_request. now rewrite Hreq.
Qed.

(** X17 at [withRequest({ path: '/api' })] on a fresh logger. *)
Lemma X17_withRequest_events_carry_request_witness :
  exists child w' c,
    Logger.withRequest online_host 0 (VObj [("path", VStr "/api")])
      (one_logger online_host LoggerConfig.empty) = (Ret child, w') /\
    Logger.heap w' !! child = Some c /\
    exists ev,
      Logger.build_event online_host c "2024-01-01T00:00:00.000Z" "info"
        "x" (VObj []) = Ret ev /\
      LogEvent.request ev = Some (VObj [("path", VStr "/api")]).
Proof.
  destruct (proj1 (X17_withRequest_events_carry_request online_host 0
                     (Logger.construct online_host LoggerConfig.empty None)
                     (one_logger online_host LoggerConfig.empty)
                     (VObj [("path", VStr "/api")])
                     eq_refl
                     (construct_constructed online_host LoggerConfig.empty None)))
    as (child & w' & c & Hrun & Hc & Hbuilt & Hreq).
  destruct (Hbuilt "2024-01-01T00:00:00.000Z" "info" "x") as [ev Hev].
  exists child, w', c. split; [exact Hrun|]. split; [exact Hc|].
  exists ev. split; [exact Hev|].
  exact (Hreq _ _ _ _ _ Hev).
Defined.

(** X18: with a request context, the request's [path] becomes the
    [route] of one platform section: of [platform] when the event has
    one, otherwise of [vercel] when it has one. The other keys of that
    section, the other section, [netlify] and the metadata and fields of
    the event stay as they were. *)
Theorem X18_route_goes_to_one_section (cfg : LoggerConfig.t)
    (ev : LogEvent.t) (r : value) :
  LoggerConfig.req cfg = Val r ->
  nullish r = false ->
  let path := default VUndefined (get_prop r "path") in
  let ev' := Logger.attach_request cfg ev in
  LogEvent.request ev' = Some r /\
  LogEvent.level ev' = LogEvent.level ev /\
  LogEvent.message ev' = LogEvent.message ev /\
  LogEvent._time ev' = LogEvent._time ev /\
  LogEvent.fields ev' = LogEvent.fields ev /\
  LogEvent.netlify ev' = LogEvent.netlify ev /\
  match LogEvent.platform ev, LogEvent.vercel ev with
  | Some p, _ =>
      LogEvent.vercel ev' = LogEvent.vercel ev /\
      exists p', LogEvent.platform ev' = Some p' /\
                 obj_get "route" p' = Some path /\
                 forall k, k <> "route" -> obj_get k p' = obj_get k p
  | None, Some v =>
      LogEvent.platform ev' = None /\
      exists v', LogEvent.vercel ev' = Some v' /\
                 obj_get "route" v' = Some path /\
                 forall k, k <> "route" -> obj_get k v' = obj_get k v
  | None, None =>
      LogEvent.platform ev' = None /\ LogEvent.vercel ev' = None
  end.
Proof.
  intros Hr Hn path ev'. unfold ev', Logger.attach_request.
  rewrite Hr, Hn.
  cbn [LogEvent.platform LogEvent.vercel LogEvent.set_request].
  destruct (LogEvent.platform ev) as [p|] eqn:Hp;
    [|destruct (LogEvent.vercel ev) as [v|] eqn:Hv];
    cbn; rewrite ?Hp, ?Hv; repeat split; try reflexivity.
  - eexists. split; [reflexivity|]. split; [apply obj_get_set_eq|].
    intros k Hk. now apply obj_get_set_ne.
  - eexists. split; [reflexivity|]. split; [apply obj_get_set_eq|].
    intros k Hk. now apply obj_get_set_ne.
Qed.

(** X18 at an event that has both sections. *)
Lemma X18_route_goes_to_one_section_witness :
  LogEvent.vercel
    (Logger.attach_request
       (LoggerConfig.mk Absent Absent Absent
          (Val (VObj [("path", VStr "/api")])))
       (LogEvent.mk "info" "x" [] "2024-01-01T00:00:00.000Z" None
          (Some [("region", VStr "fra1")]) (Some [("region", VStr "iad1")])
          None)) =
  Some [("region", VStr "iad1")].
Proof.
  exact (proj1 (proj2 (proj2 (proj2 (proj2 (proj2 (proj2
           (X18_route_goes_to_one_section
              (LoggerConfig.mk Absent Absent Absent
                 (Val (VObj [("path", VStr "/api")])))
              (LogEvent.mk "info" "x" [] "2024-01-01T00:00:00.000Z" None
                 (Some [("region", VStr "fra1")])
                 (Some [("region", VStr "iad1")]) None)
              (VObj [("path", VStr "/api")]) eq_refl eq_refl)))))))).
Defined.

(** X19: children are listed in the order they were made: after [with]
    and then [withArgs] on the same receiver, its children are the ones
    it had, followed by the two new loggers, which are distinct. *)
Theorem X19_children_in_creation_order (h : Host) (this : loc)
    (l : Logger.t) (w : Logger.world) (overrides : LoggerConfig.t)
    (args : value) :
  Logger.heap w !! this = Some l ->
  exists c1 w1 c2 w2 l2,
    Logger.with_ h this overrides w = (Ret c1, w1) /\
    Logger.withArgs h this args w1 = (Ret c2, w2) /\
    c1 <> c2 /\
    Logger.heap w2 !! this = Some l2 /\
    Logger.children l2 = Logger.children l ++ [c1; c2] /\
    Logger.config l2 = Logger.config l.
Proof.
  intros Hl.
  set (k1 := Logger.construct h
               (LoggerConfig.spread (Logger.config l) overrides)
               (Logger.clientOpts l)).
  pose proof (registered_parent w this l k1 Hl) as Hl1.
  exists (length (Logger.heap w)), (registered w this l k1),
    (length (Logger.heap (registered w this l k1))).
  do 2 eexists.
  split; [exact (with_run h w this l overrides Hl)|].
  split; [exact (withArgs_run h _ this _ args Hl1)|].
  split.
  { unfold registered; cbn [Logger.heap].
    rewrite length_app, length_insert; simpl. lia. }
  split; [now apply registered_parent|].
  cbn [Logger.children Logger.config Logger.set_children].
  split; [now rewrite <- app_assoc | reflexivity].
Qed.

(** X19 on a fresh logger. *)
Lemma X19_children_in_creation_order_witness :
  exists c1 w1 c2 w2 l2,
    Logger.with_ online_host 0 LoggerConfig.empty
      (one_logger online_host LoggerConfig.empty) = (Ret c1, w1) /\
    Logger.withArgs online_host 0 (VObj [("a", VNum 1)]) w1 = (Ret c2, w2) /\
    Logger.heap w2 !! 0 = Some l2 /\
    Logger.children l2 = [c1; c2].
Proof.
  destruct (X19_children_in_creation_order online_host 0
              (Logger.construct online_host LoggerConfig.empty None)
              (one_logger online_host LoggerConfig.empty)
              LoggerConfig.empty (VObj [("a", VNum 1)]) eq_refl)
    as (c1 & w1 & c2 & w2 & l2 & H1 & H2 & _ & Hl2 & Hch & _).
  exists c1, w1, c2, w2, l2. repeat split; assumption.
Defined.

(** X20: [with] merges one level deep only. An [args] map in the
    overrides replaces the receiver's [args] as a whole, where [withArgs]
    would merge the two; and a key the overrides hold as undefined wins
    over the receiver's value: an undefined [source] erases it, an
    undefined [logLevel] makes the child take its threshold from the
    environment. *)
Theorem X20_with_replaces_args (h : Host) (this : loc) (l : Logger.t)
    (w : Logger.world) (overrides : LoggerConfig.t) :
  Logger.heap w !! this = Some l ->
  constructed h l ->
  exists child w' c,
    Logger.with_ h this overrides w = (Ret child, w') /\
    Logger.heap w' !! child = Some c /\
    (forall a, LoggerConfig.args overrides = Val a ->
               LoggerConfig.args (Logger.config c) = Val a) /\
    (LoggerConfig.args overrides = Absent ->
     LoggerConfig.args (Logger.config c) =
     LoggerConfig.args (Logger.config l)) /\
    (LoggerConfig.source overrides = Undef ->
     LoggerConfig.source (Logger.config c) = Undef) /\
    (LoggerConfig.logLevel overrides = Undef ->
     Logger.logLevel c = Logger.LOG_LEVEL h).
Proof.
  intros Hl Hc. do 3 eexists.
  split; [exact (with_run h w this l overrides Hl)|].
  split; [apply registered_child|].
  rewrite child_config by assumption.
  split; [|split; [|split]].
  - intros a Ha. simpl. now rewrite Ha.
  - intros Ha. simpl. now rewrite Ha.
  - intros Hs. simpl. now rewrite Hs.
  - intros Hlev. apply construct_logLevel_env.
    simpl. now rewrite Hlev.
Qed.

(** X20 at [with({ args: { b: 2 } })] on a logger with [args] of
    [{ a: 1 }]. *)
Lemma X20_with_replaces_args_witness :
  exists child w' c,
    Logger.with_ online_host 0
      (LoggerConfig.mk (Val [("b", VNum 2)]) Absent Absent Absent)
      (one_logger online_host
         (LoggerConfig.mk (Val [("a", VNum 1)]) Absent Absent Absent)) =
    (Ret child, w') /\
    Logger.heap w' !! child = Some c /\
    LoggerConfig.args (Logger.config c) = Val [("b", VNum 2)].
Proof.
  destruct (X20_with_replaces_args online_host 0
              (Logger.construct online_host
                 (LoggerConfig.mk (Val [("a", VNum 1)]) Absent Absent Absent)
                 None)
              (one_logger online_host
                 (LoggerConfig.mk (Val [("a", VNum 1)]) Absent Absent Absent))
              (LoggerConfig.mk (Val [("b", VNum 2)]) Absent Absent Absent)
              eq_refl
              (construct_constructed online_host _ None))
    as (child & w' & c & Hrun & Hc & Hargs & _).
  exists child, w', c. repeat split; try assumption.
  now apply Hargs.
Defined.
